(** * ccache, [src/execute.cpp]: child-process launch and executable resolution

    A shallow embedding of the two launch paths ([execute] on POSIX,
    [win32execute] on Windows), of the shell detector [win32getshell] and of
    the resolver ([find_executable], [find_executable_in_path]), with the
    operating system's answers taken as explicit inputs and the observable
    effects (log lines, filesystem queries, process and job calls, the
    temporary response file) recorded in a trace and a file store. *)

From Stdlib Require Import ZArith String Ascii List Bool Lia.
From stdpp Require Import base option list strings gmap.

Local Open Scope string_scope.
Local Open Scope Z_scope.

(** ** Wait statuses, as <sys/wait.h> decodes them

    [execute] reads the status word filled in by [waitpid] through the
    macros [WEXITSTATUS] and [WIFSIGNALED].  They are the C library's, here
    in glibc's formulation: the exit code is bits 8..15, the terminating
    signal bits 0..6, and bit 7 flags a core dump. *)

Module WaitStatus.

(** Conversion to [signed char], wrap-around written out. *)
Definition to_schar (x : Z) : Z :=
  let r := x mod 256 in if r <? 128 then r else r - 256.

Definition WEXITSTATUS (status : Z) : Z := Z.shiftr (Z.land status 0xff00) 8.
Definition WTERMSIG (status : Z) : Z := Z.land status 0x7f.
Definition WIFEXITED (status : Z) : bool := WTERMSIG status =? 0.
Definition WIFSIGNALED (status : Z) : bool :=
  0 <? Z.shiftr (to_schar (Z.land status 0x7f + 1)) 1.

(** How a reaped child ended.  [waitpid] is called with no option flag,
    so a stopped or continued child is never reported. *)
Inductive cause : Type :=
| Exited (code : Z)
| Killed (sig : Z) (core : bool).

(** The cause is one the kernel can report: an exit code is a byte, a
    signal number lies in 1..126 (127 is the "stopped" marker). *)
Definition cause_ok (c : cause) : bool :=
  match c with
  | Exited code => (0 <=? code) && (code <=? 255)
  | Killed sig _ => (1 <=? sig) && (sig <=? 126)
  end.

(** The status word the Linux kernel hands to [waitpid] for that cause:
    the two fields are never set together. *)
Definition status_of (c : cause) : Z :=
  match c with
  | Exited code => Z.shiftl (Z.land code 0xff) 8
  | Killed sig core => Z.lor (Z.land sig 0x7f) (if core then 0x80 else 0)
  end.

End WaitStatus.

(** ** The POSIX launcher *)

Module Posix.
Import WaitStatus.

Definition EINTR : Z := 4.

(** [Context], reduced to the field [execute] touches. *)
Record Context : Type := { compiler_pid : Z }.

(** One answer of [waitpid]: its return value, the status word it stored
    and [errno] after the call. *)
Record WaitReply : Type :=
  { wr_result : Z; wr_status : Z; wr_errno : Z }.

Inductive Waited : Type :=
| Reaped (status : Z)          (* the loop was left: the child is reaped *)
| WaitFailed (errno : Z)       (* throw core::Fatal("waitpid failed: ...") *)
| Waiting.                      (* still inside the loop: no answer left *)

(** The loop
    [while ((result = waitpid(pid, &status, 0)) != pid) {
       if (result == -1 && errno == EINTR) continue;
       throw core::Fatal(...); }]
    run against the successive answers of [waitpid]. *)
Fixpoint wait_loop (pid : Z) (replies : list WaitReply) : Waited :=
  match replies with
  | [] => Waiting
  | r :: rest =>
      if wr_result r =? pid then Reaped (wr_status r)
      else if (wr_result r =? -1) && (wr_errno r =? EINTR)
           then wait_loop pid rest
           else WaitFailed (wr_errno r)
  end.

(** Lines 340..344: the value returned for a reaped status. *)
Definition exit_outcome (status : Z) : Z :=
  if (WEXITSTATUS status =? 0) && WIFSIGNALED status then -1
  else WEXITSTATUS status.

Inductive Outcome : Type :=
| Returned (code : Z)               (* execute returns to its caller *)
| Fatal (what : string) (errno : Z) (* core::Fatal is thrown *)
| ChildImage (code : option Z)      (* in the child: execv took over
                                       (None) or failed and the child
                                       exits with execv's result *)
| Blocked.                          (* the parent is still waiting *)

(** What the operating system answers during one call. *)
Record Os : Type :=
  { fork_result : Z;           (* fork(): -1, 0 in the child, else the pid *)
    fork_errno : Z;
    execv_result : option Z;   (* None: the image is replaced *)
    waitpid_replies : list WaitReply }.

Definition execute (ctx : Context) (os : Os) : Context * Outcome :=
  let ctx := {| compiler_pid := fork_result os |} in
  if compiler_pid ctx =? -1 then (ctx, Fatal "Failed to fork" (fork_errno os))
  else if compiler_pid ctx =? 0 then (ctx, ChildImage (execv_result os))
  else
    match wait_loop (compiler_pid ctx) (waitpid_replies os) with
    | Waiting => (ctx, Blocked)
    | WaitFailed e => (ctx, Fatal "waitpid failed" e)
    | Reaped status =>
        ({| compiler_pid := 0 |}, Returned (exit_outcome status))
    end.

(** An interrupted [waitpid]. *)
Definition interrupted (status : Z) : WaitReply :=
  {| wr_result := -1; wr_status := status; wr_errno := EINTR |}.

(** A [waitpid] answer that is neither the awaited pid nor an
    interruption. *)
Definition wait_failure (pid : Z) (r : WaitReply) : bool :=
  negb (wr_result r =? pid)
  && negb ((wr_result r =? -1) && (wr_errno r =? EINTR)).

Definition with_replies (os : Os) (replies : list WaitReply) : Os :=
  {| fork_result := fork_result os; fork_errno := fork_errno os;
     execv_result := execv_result os; waitpid_replies := replies |}.

(** A run in which [waitpid] is interrupted once and then reports a child
    killed by signal 9. *)
Definition os_killed : Os :=
  {| fork_result := 4242; fork_errno := 0; execv_result := None;
     waitpid_replies :=
       [interrupted 0;
        {| wr_result := 4242; wr_status := 9; wr_errno := 0 |}] |}.

(** [exit(execv(...))] in the child: of the value passed to [exit] the
    status word keeps the low eight bits. *)
Definition reaped_cause (child : Outcome) : option cause :=
  match child with
  | ChildImage (Some r) => Some (Exited (Z.land r 0xff))
  | _ => None
  end.

End Posix.

(** ** Collaborators of execute.cpp

    Helpers of the standard library and of ccache's own [util] layer that
    [execute.cpp] calls but does not define.  They are taken as they come:
    every statement below holds for any implementation of them. *)

Inductive Platform : Type := POSIX | WIN32.

Class Util : Type :=
  { is_absolute : string → bool;             (* fs::path::is_absolute *)
    path_append : string → string → string;  (* fs::path operator/ *)
    path_extension : string → string;        (* fs::path::extension *)
    to_lowercase : string → string;          (* util::to_lowercase *)
    split_path_list : string → list string;  (* util::split_path_list *)
    is_ccache_executable : string → bool;    (* ccache.hpp *)
    add_exe_suffix : string → string;        (* util::add_exe_suffix *)
    (* util::format_argv_as_win32_command_string(argv, prefix,
       escape_backslashes) *)
    format_argv_as_win32_command_string :
      list string → string → bool → string }.

(** What the filesystem answers. *)
Record FileSystem : Type :=
  { access_x_ok : string → bool;        (* access(p, X_OK) == 0 *)
    is_regular_file : string → bool;    (* util::DirEntry(p).is_regular_file() *)
    canonical : string → option string; (* fs::canonical(p); None: error *)
    (* util::FileStream(p, "r"): the characters the stream delivers, None
       when the file cannot be opened *)
    read_stream : string → option string }.

(** What the resolver and the shell detector do that can be observed,
    in program order. *)
Inductive Event : Type :=
| Log (msg : string)
| FsExists (p : string)        (* access(p, X_OK) or DirEntry(p) *)
| FsCanonical (p : string)
| FsOpen (p : string).

(** A computation with a result and the effects it performed. *)
Definition Eff (A : Type) : Type := (A * list Event)%type.

#[global] Instance Eff_ret : MRet Eff := λ A a, (a, []).
#[global] Instance Eff_bind : MBind Eff :=
  λ A B f m, let '(a, t1) := m in let '(b, t2) := f a in (b, (t1 ++ t2)%list).

Definition emit (e : Event) : Eff unit := (tt, [e]).

Definition is_empty (s : string) : bool := String.eqb s EmptyString.

(** ** The resolver *)

Module Resolver.
Section Resolver.
Context `{U : Util} (plat : Platform) (fs : FileSystem).

Definition candidate_exists (candidate : string) : Eff bool :=
  (match plat with
   | WIN32 => is_regular_file fs candidate
   | POSIX => access_x_ok fs candidate
   end, [FsExists candidate]).

Definition fs_canonical (p : string) : Eff (option string) :=
  (canonical fs p, [FsCanonical p]).

(** The vector [candidates] built for one directory. *)
Definition candidates (dir name : string) : list string :=
  match plat with
  | POSIX => [path_append dir name]
  | WIN32 => [path_append dir name; path_append dir (name +:+ ".exe")]
  end.

(** The comparison and the self test made on a canonicalized candidate.
    Canonical paths carry no redundant separators, so [fs::path]'s
    element-wise comparison is equality of strings on them. *)
Definition acceptable (real_exclude_path real_candidate : string) : bool :=
  negb (String.eqb real_candidate real_exclude_path)
  && negb (is_ccache_executable real_candidate).

(** The inner loop, [Some candidate] standing for [return candidate]. *)
Fixpoint scan_candidates (real_exclude_path : string) (cs : list string)
  : Eff (option string) :=
  match cs with
  | [] => mret None
  | candidate :: rest =>
      candidate_exists ← candidate_exists candidate;
      if candidate_exists : bool then
        real_candidate ← fs_canonical candidate;
        match real_candidate with
        | Some rc =>
            if acceptable real_exclude_path rc then mret (Some candidate)
            else scan_candidates real_exclude_path rest
        | None => scan_candidates real_exclude_path rest
        end
      else scan_candidates real_exclude_path rest
  end.

(** The outer loop over the directories of the path list. *)
Fixpoint scan_dirs (real_exclude_path name : string) (dirs : list string)
  : Eff (option string) :=
  match dirs with
  | [] => mret None
  | dir :: rest =>
      found ← scan_candidates real_exclude_path (candidates dir name);
      match found with
      | Some candidate => mret (Some candidate)
      | None => scan_dirs real_exclude_path name rest
      end
  end.

(** Line 384: the canonical form of the exclude path, or the empty path
    when there is no exclude path or [fs::canonical] fails on it. *)
Definition real_exclude (exclude_path : option string) : Eff string :=
  match exclude_path with
  | Some e => r ← fs_canonical e; mret (default EmptyString r)
  | None => mret EmptyString
  end.

(** The body of [find_executable_in_path], with [Some candidate] for
    [return candidate] and [None] for the two [return {}]. *)
Definition find_candidate
    (name path_list : string) (exclude_path : option string)
  : Eff (option string) :=
  if is_empty path_list then mret None
  else
    real_exclude_path ← real_exclude exclude_path;
    scan_dirs real_exclude_path name (split_path_list path_list).

Definition find_executable_in_path
    (name path_list : string) (exclude_path : option string) : Eff string :=
  found ← find_candidate name path_list exclude_path;
  mret (default EmptyString found).

(** *** The resolver's contract, in the words of its description *)

(** (a) the candidate exists and is executable *)
Definition exists_executable (candidate : string) : bool :=
  match plat with
  | WIN32 => is_regular_file fs candidate
  | POSIX => access_x_ok fs candidate
  end.

(** The canonical exclude path the candidates are compared with: empty
    when there is no exclude path or it cannot be canonicalized. *)
Definition canonical_exclude (exclude_path : option string) : string :=
  match exclude_path with
  | Some e => default EmptyString (canonical fs e)
  | None => EmptyString
  end.

(** (a), (b) and (c) together *)
Definition valid (real_exclude_path candidate : string) : bool :=
  exists_executable candidate
  && match canonical fs candidate with
     | Some rc =>
         negb (String.eqb rc real_exclude_path)
         && negb (is_ccache_executable rc)
     | None => false
     end.

(** The directories of a path list; the empty list has none. *)
Definition directories (path_list : string) : list string :=
  if is_empty path_list then [] else split_path_list path_list.

(** All candidates, in scanning order. *)
Definition all_candidates (name path_list : string) : list string :=
  flat_map (λ dir, candidates dir name) (directories path_list).

(** The queries one candidate costs: the existence test, then the
    canonicalization if it exists. *)
Definition probe (candidate : string) : list Event :=
  if exists_executable candidate
  then [FsExists candidate; FsCanonical candidate]
  else [FsExists candidate].

(** The candidates up to the first that passes, that one included. *)
Fixpoint scanned (real_exclude_path : string) (cs : list string)
  : list string :=
  match cs with
  | [] => []
  | c :: rest =>
      c :: (if valid real_exclude_path c then []
            else scanned real_exclude_path rest)
  end.

(** A value, or a step whose behaviour the language leaves undefined. *)
Inductive Res (A : Type) : Type :=
  | Val (a : A)
  | Undefined (what : string).
#[global] Arguments Val {A} a.
#[global] Arguments Undefined {A} what.

(** [find_executable]: [config_path] is [ctx.config.path()], [env] the
    process environment.  [getenv] yields a null pointer for a variable
    that is not set, and line 365 assigns its result to a [std::string]
    without a test. *)
Definition find_executable
    (config_path : string) (env : gmap string string)
    (name exclude_path : string) : Eff (Res string) :=
  if is_absolute name then mret (Val name)
  else
    let assigned :=
      if is_empty config_path then env !! "PATH" else Some config_path in
    match assigned with
    | None => mret (Undefined "std::string assigned from a null pointer")
    | Some path_list =>
        if is_empty path_list then
          _ ← emit (Log "No PATH variable"); mret (Val EmptyString)
        else
          r ← find_executable_in_path name path_list (Some exclude_path);
          mret (Val r)
    end.

End Resolver.
End Resolver.

(** ** The Windows launcher *)

Module Win32.
Section Win32.
Context `{U : Util} (fs : FileSystem) (env : gmap string string).

(** *** Shell detection *)

Definition newline : ascii := "010"%char.

(** [fgets(buf, size, fp)] on a freshly opened stream: at most
    [size - 1] characters are stored, and reading stops after a newline. *)
Fixpoint fgets_chars (room : nat) (stream : string) : string :=
  match room, stream with
  | O, _ => EmptyString
  | S _, EmptyString => EmptyString
  | S room', String c rest =>
      if Ascii.eqb c newline then String c EmptyString
      else String c (fgets_chars room' rest)
  end.

Definition fgets (size : nat) (stream : string) : string :=
  fgets_chars (size - 1) stream.

(** [std::string(buf)]: the characters of [buf] before its first NUL. *)
Fixpoint c_str (buf : string) : string :=
  match buf with
  | EmptyString => EmptyString
  | String c rest =>
      if Ascii.eqb c Ascii.zero then EmptyString else String c (c_str rest)
  end.

(** [char buf[10]] *)
Definition sizeof_buf : nat := 10.

Definition find_sh (path_list : option string) (otherwise : string)
  : Eff string :=
  match path_list with
  | Some pl => Resolver.find_executable_in_path WIN32 fs "sh.exe" pl None
  | None => mret otherwise
  end.

Definition win32getshell (path : string) : Eff string :=
  let path_list := env !! "PATH" in
  sh ← (if String.eqb (to_lowercase (path_extension path)) ".sh"
        then find_sh path_list EmptyString
        else mret EmptyString);
  if is_empty sh && bool_decide (is_Some (env !! "CCACHE_DETECT_SHEBANG"))
  then
    _ ← emit (FsOpen path);
    match read_stream fs path with
    | Some stream =>
        let buf := fgets (sizeof_buf - 1) stream in
        if String.eqb (c_str buf) "#!/bin/sh" then find_sh path_list sh
        else mret sh
    | None => mret sh
    end
  else mret sh.

(** *** Constants of the Windows API *)

Definition JOB_OBJECT_LIMIT_BREAKAWAY_OK : Z := 0x800.
Definition JOB_OBJECT_LIMIT_SILENT_BREAKAWAY_OK : Z := 0x1000.
Definition JOB_OBJECT_LIMIT_KILL_ON_JOB_CLOSE : Z := 0x2000.
Definition CREATE_SUSPENDED : Z := 0x4.
Definition CREATE_BREAKAWAY_FROM_JOB : Z := 0x1000000.
Definition INVALID_HANDLE_VALUE : Z := -1.
Definition STD_OUTPUT_HANDLE : Z := -11.
Definition STD_ERROR_HANDLE : Z := -12.

(** *** What the operating system answers during one launch *)

Record Api : Type :=
  { os_IsProcessInJob : option bool;         (* None: the call fails *)
    os_QueryInformationJobObject : option Z; (* the limit flags *)
    os_CreateJobObject : Z;                  (* 0 is nullptr *)
    os_SetInformationJobObject : bool;
    os_get_osfhandle : Z → Z;
    os_GetStdHandle : Z → Z;
    os_tmp_suffix : option string;           (* None: no file is created *)
    os_write_fd : bool;
    os_CreateProcess : string → string → Z → bool;
    os_AssignProcessToJobObject : bool;
    os_GetExitCodeProcess : Z }.

(** Modelled from the spec: [util::TemporaryFile::create] is defined in
    util/TemporaryFile.cpp, which is not among the sources at hand.  It
    creates a new, empty file whose name extends the given prefix by a
    part of its own choosing and reports that name, or fails. *)
Definition TemporaryFile_create (api : Api) (path_prefix : string)
  : option string :=
  (λ suffix, path_prefix +:+ suffix) <$> os_tmp_suffix api.

(** *** The launch monad: file store, trace, and an early way out *)

Inductive Outcome : Type :=
| Returned (code : Z)   (* return to the caller *)
| Exited (code : Z)     (* exit(): the process ends, nothing unwinds *)
| Thrown (what : string).

(** What the launcher does that can be observed, in program order. *)
Inductive Call : Type :=
| Did (e : Event)              (* a log line or a filesystem query *)
| TmpCreate (p : string)
| WriteFd (p : string) (data : string)
| Remove (p : string)
| CreateJobObject (job : Z)
| SetInformationJobObject (job : Z) (limit_flags : Z)
| CreateProcess (app : string) (cmdline : string) (creation_flags : Z)
| CloseFd (fd : Z)
| AssignProcessToJobObject (job : Z)
| TerminateProcess (code : Z)
| ResumeThread
| WaitForSingleObject
| CloseHandle (what : string).

Record LState : Type :=
  { files : gmap string string;   (* temporary files on disk *)
    trace : list Call;
    tmp_file_path : string }.     (* the local the finalizer captures *)

Definition Launch (A : Type) : Type := LState → (Outcome + A) * LState.

#[global] Instance Launch_ret : MRet Launch := λ A a s, (inr a, s).
#[global] Instance Launch_bind : MBind Launch :=
  λ A B f m s,
    match m s with
    | (inl o, s') => (inl o, s')
    | (inr a, s') => f a s'
    end.

Definition stop {A} (o : Outcome) : Launch A := λ s, (inl o, s).

Definition ev (e : Call) : Launch unit :=
  λ s, (inr tt, {| files := files s; trace := (trace s ++ [e])%list;
                   tmp_file_path := tmp_file_path s |}).

Definition log (msg : string) : Launch unit := ev (Did (Log msg)).

Definition lift {A} (m : Eff A) : Launch A :=
  λ s, (inr (fst m), {| files := files s;
                        trace := (trace s ++ map Did (snd m))%list;
                        tmp_file_path := tmp_file_path s |}).

Definition create_file (p : string) : Launch unit :=
  λ s, (inr tt, {| files := <[p := EmptyString]> (files s);
                   trace := (trace s ++ [TmpCreate p])%list;
                   tmp_file_path := tmp_file_path s |}).

(** [util::write_fd]; its result is not looked at. *)
Definition write_fd (api : Api) (p data : string) : Launch unit :=
  λ s, (inr tt,
        {| files := if os_write_fd api then <[p := data]> (files s)
                    else files s;
           trace := (trace s ++ [WriteFd p data])%list;
           tmp_file_path := tmp_file_path s |}).

Definition set_tmp_file_path (p : string) : Launch unit :=
  λ s, (inr tt, {| files := files s; trace := trace s;
                   tmp_file_path := p |}).

(** The body of the finalizer [tmp_file_remover]. *)
Definition tmp_file_remover (s : LState) : LState :=
  if is_empty (tmp_file_path s) then s
  else {| files := delete (tmp_file_path s) (files s);
          trace := (trace s ++ [Remove (tmp_file_path s)])%list;
          tmp_file_path := tmp_file_path s |}.

(** The scope the finalizer guards: it runs when the scope is left by
    [return] or by an exception, not when [exit] ends the process. *)
Definition finally_remove {A} (m : Launch A) : Launch A :=
  λ s, match m s with
       | (inl (Exited code), s') => (inl (Exited code), s')
       | (r, s') => (r, tmp_file_remover s')
       end.

(** *** [win32execute] *)

(** Conversion of a [DWORD] to [int], wrap-around written out. *)
Definition to_int (x : Z) : Z :=
  let r := x mod 2 ^ 32 in if r <? 2 ^ 31 then r else r - 2 ^ 32.

Definition dquote : string := String "034"%char EmptyString.

(** [FMT(R"("{}" "@{}")", full_path, tmp_file.path)] *)
Definition response_file_command (full_path tmp : string) : string :=
  dquote +:+ full_path +:+ dquote +:+ " " +:+ dquote +:+ "@" +:+ tmp
  +:+ dquote.

(** [bool is_kill_active = limit_flags & JOB_OBJECT_LIMIT_KILL_ON_JOB_CLOSE]
    and [bool allow_break_away = limit_flags & JOB_OBJECT_LIMIT_BREAKAWAY_OK]:
    a bit test, nonzero being true. *)
Definition is_kill_active (limit_flags : Z) : bool :=
  negb (Z.land limit_flags JOB_OBJECT_LIMIT_KILL_ON_JOB_CLOSE =? 0).

Definition allow_break_away (limit_flags : Z) : bool :=
  negb (Z.land limit_flags JOB_OBJECT_LIMIT_BREAKAWAY_OK =? 0).

(** Lines 120..159: the job the current process is in decides
    [is_process_in_job] and [dw_creation_flags]. *)
Definition job_policy (api : Api) : Launch (bool * Z) :=
  match os_IsProcessInJob api with
  | None => _ ← log "failed to IsProcessInJob"; stop (Returned 0)
  | Some true =>
      match os_QueryInformationJobObject api with
      | None =>
          _ ← log "failed to QueryInformationJobObject";
          stop (Returned 0)
      | Some limit_flags =>
          let is_kill_active := is_kill_active limit_flags in
          let allow_break_away := allow_break_away limit_flags in
          if negb is_kill_active && allow_break_away
          then mret (false, Z.lor CREATE_BREAKAWAY_FROM_JOB CREATE_SUSPENDED)
          else mret (true, 0)
      end
  | Some false => mret (false, CREATE_SUSPENDED)
  end.

(** Lines 161..189: a job of the launcher's own, unless
    [is_process_in_job] still holds; 0 stands for [nullptr]. *)
Definition make_job (api : Api) (is_process_in_job : bool) : Launch Z :=
  if is_process_in_job then mret 0
  else
    let job := os_CreateJobObject api in
    _ ← ev (CreateJobObject job);
    if job =? 0 then
      _ ← log "failed to CreateJobObject"; stop (Returned (-1))
    else
      _ ← ev (SetInformationJobObject job
                (Z.lor JOB_OBJECT_LIMIT_KILL_ON_JOB_CLOSE
                       JOB_OBJECT_LIMIT_SILENT_BREAKAWAY_OK));
      if os_SetInformationJobObject api then mret job
      else
        _ ← log "failed to JobObjectExtendedLimitInformation";
        stop (Returned (-1)).

(** Lines 202..222: the standard handles of the child. *)
Definition startup_handles (api : Api) (fd_stdout fd_stderr : Z)
  : Launch unit :=
  let hStdOutput :=
    if negb (fd_stdout =? -1) then os_get_osfhandle api fd_stdout
    else os_GetStdHandle api STD_OUTPUT_HANDLE in
  let hStdError :=
    if negb (fd_stdout =? -1) then os_get_osfhandle api fd_stderr
    else os_GetStdHandle api STD_ERROR_HANDLE in
  if (hStdOutput =? INVALID_HANDLE_VALUE) || (hStdError =? INVALID_HANDLE_VALUE)
  then stop (Returned (-1))
  else mret tt.

(** Lines 224..242: the command line, moved to a response file when it is
    longer than 8192 characters.  The call of line 224 leaves
    [escape_backslashes] to its default, off. *)
Definition command_line (api : Api) (argv : list string)
    (sh full_path temp_dir : string) : Launch string :=
  let args := format_argv_as_win32_command_string argv sh false in
  if 8192 <? Z.of_nat (String.length args) then
    match TemporaryFile_create api (temp_dir +:+ "/cmd_args") with
    | None => stop (Thrown "TemporaryFile::create")
    | Some tmp_file =>
        _ ← create_file tmp_file;
        let args := format_argv_as_win32_command_string (tail argv) sh true in
        _ ← write_fd api tmp_file args;
        let args := response_file_command full_path tmp_file in
        _ ← set_tmp_file_path tmp_file;
        _ ← log ("Arguments from " +:+ tmp_file);
        mret args
    end
  else mret args.

(** Lines 243..290: create the process, wait for it, hand back its exit
    code. *)
Definition spawn_and_wait (api : Api) (doreturn : bool)
    (fd_stdout fd_stderr dw_creation_flags job : Z)
    (full_path args : string) : Launch Z :=
  let ret := os_CreateProcess api full_path args dw_creation_flags in
  _ ← ev (CreateProcess full_path args dw_creation_flags);
  _ ← (if negb (fd_stdout =? -1)
       then _ ← ev (CloseFd fd_stdout); ev (CloseFd fd_stderr)
       else mret tt);
  if negb ret then
    _ ← log ("failed to execute " +:+ full_path); stop (Returned (-1))
  else
    _ ← (if negb (job =? 0) then
           _ ← ev (AssignProcessToJobObject job);
           if os_AssignProcessToJobObject api then ev ResumeThread
           else
             _ ← ev (TerminateProcess 1);
             _ ← log ("failed to assign process to job object "
                      +:+ full_path);
             stop (Returned (-1))
         else mret tt);
    _ ← ev WaitForSingleObject;
    let exitcode := os_GetExitCodeProcess api in
    _ ← ev (CloseHandle "process");
    _ ← ev (CloseHandle "thread");
    _ ← ev (CloseHandle "job");
    if negb doreturn then stop (Exited (to_int exitcode))
    else mret (to_int exitcode).

(** Lines 120..222, up to the declaration of the finalizer: the creation
    flags, the job handle and the shell. *)
Definition prelude (api : Api) (path : string) (fd_stdout fd_stderr : Z)
  : Launch (Z * Z * string) :=
  '(is_process_in_job, dw_creation_flags) ← job_policy api;
  job ← make_job api is_process_in_job;
  sh ← lift (win32getshell path);
  _ ← startup_handles api fd_stdout fd_stderr;
  mret (dw_creation_flags, job, sh).

(** Lines 224..290, the scope of the finalizer. *)
Definition guarded_launch (api : Api) (path : string) (argv : list string)
    (doreturn : bool) (fd_stdout fd_stderr : Z) (temp_dir : string)
    (dw_creation_flags job : Z) (sh : string) : Launch Z :=
  let path := if negb (is_empty sh) then sh else path in
  let full_path := add_exe_suffix path in
  finally_remove
    (args ← command_line api argv sh full_path temp_dir;
     spawn_and_wait api doreturn fd_stdout fd_stderr dw_creation_flags job
       full_path args).

Definition win32execute_steps (api : Api) (path : string)
    (argv : list string) (doreturn : bool) (fd_stdout fd_stderr : Z)
    (temp_dir : string) : Launch Z :=
  '(dw_creation_flags, job, sh) ← prelude api path fd_stdout fd_stderr;
  guarded_launch api path argv doreturn fd_stdout fd_stderr temp_dir
    dw_creation_flags job sh.

(** How a run ends: by an outcome of its own, or by returning a value. *)
Definition outcome_of (r : Outcome + Z) : Outcome :=
  match r with
  | inl o => o
  | inr code => Returned code
  end.

(** One call of [win32execute] on a disk holding [disk]: how the call
    ends, and the state it leaves. *)
Definition win32execute (api : Api) (path : string) (argv : list string)
    (doreturn : bool) (fd_stdout fd_stderr : Z) (temp_dir : string)
    (disk : gmap string string) : Outcome * LState :=
  let r := win32execute_steps api path argv doreturn fd_stdout fd_stderr
             temp_dir
             {| files := disk; trace := []; tmp_file_path := EmptyString |} in
  (outcome_of r.1, r.2).

(** [execute] of the Windows build: [ctx.config.temporary_dir()] is
    [temp_dir]; the released descriptors are [fd_out] and [fd_err]. *)
Definition execute (api : Api) (temp_dir : string) (argv : list string)
    (fd_out fd_err : Z) (disk : gmap string string) : Outcome * LState :=
  let '(o, s) :=
    win32execute api (hd EmptyString argv) argv true fd_out fd_err temp_dir
      disk in
  (o, {| files := files s; trace := Did (Log "Executing") :: trace s;
         tmp_file_path := tmp_file_path s |}).

Definition execute_noreturn (api : Api) (argv : list string)
    (temp_dir : string) (disk : gmap string string) : Outcome * LState :=
  win32execute api (hd EmptyString argv) argv false (-1) (-1) temp_dir disk.

(** *** Reading a trace *)

Definition creation_flags (tr : list Call) : list Z :=
  flat_map (λ c, match c with CreateProcess _ _ f => [f] | _ => [] end) tr.

Definition command_lines (tr : list Call) : list string :=
  flat_map (λ c, match c with CreateProcess _ cmd _ => [cmd] | _ => [] end) tr.

Definition jobs_created (tr : list Call) : list Z :=
  flat_map (λ c, match c with CreateJobObject job => [job] | _ => [] end) tr.

Definition jobs_joined (tr : list Call) : list Z :=
  flat_map (λ c, match c with AssignProcessToJobObject job => [job] | _ => [] end)
    tr.

Definition tmp_created (tr : list Call) : list string :=
  flat_map (λ c, match c with TmpCreate p => [p] | _ => [] end) tr.

Definition tmp_written (tr : list Call) : list (string * string) :=
  flat_map (λ c, match c with WriteFd p data => [(p, data)] | _ => [] end) tr.

Definition tmp_removed (tr : list Call) : list string :=
  flat_map (λ c, match c with Remove p => [p] | _ => [] end) tr.

Definition applications (tr : list Call) : list string :=
  flat_map (λ c, match c with CreateProcess app _ _ => [app] | _ => [] end) tr.

Definition job_limits (tr : list Call) : list Z :=
  flat_map (λ c, match c with
                 | SetInformationJobObject _ limit_flags => [limit_flags]
                 | _ => []
                 end) tr.

Definition fds_closed (tr : list Call) : list Z :=
  flat_map (λ c, match c with CloseFd fd => [fd] | _ => [] end) tr.

Definition waits (tr : list Call) : list unit :=
  flat_map (λ c, match c with WaitForSingleObject => [tt] | _ => [] end) tr.

Definition resumes (tr : list Call) : list unit :=
  flat_map (λ c, match c with ResumeThread => [tt] | _ => [] end) tr.

Definition terminations (tr : list Call) : list Z :=
  flat_map (λ c, match c with TerminateProcess code => [code] | _ => [] end)
    tr.

(** The child is put into a job object the launcher has created. *)
Definition joins_fresh_job (tr : list Call) : Prop :=
  ∃ job, In job (jobs_created tr) ∧ In job (jobs_joined tr).

End Win32.
End Win32.

(** ** A concrete host

    Simple implementations of the collaborators and small filesystems, used
    to run the model on examples. *)

Module Sample.

Definition slash : ascii := "/"%char.

Definition starts_with_slash (s : string) : bool :=
  match s with
  | String c _ => Ascii.eqb c slash
  | EmptyString => false
  end.

(** Splits at [sep], dropping empty pieces; [cur] is the piece being
    read, last character first. *)
Fixpoint split_on (sep : ascii) (cur : string) (s : string) : list string :=
  let flush rest :=
    if is_empty cur then rest else String.rev cur :: rest in
  match s with
  | EmptyString => flush []
  | String c r =>
      if Ascii.eqb c sep then flush (split_on sep EmptyString r)
      else split_on sep (String c cur) r
  end.

Definition ends_with_slash (s : string) : bool :=
  starts_with_slash (String.rev s).

(** [dir / name]: an absolute [name] replaces [dir]; a separator is added
    unless [dir] is empty or ends with one. *)
Definition join (dir name : string) : string :=
  if starts_with_slash name then name
  else if is_empty dir then name
  else if ends_with_slash dir then dir +:+ name
  else dir +:+ "/" +:+ name.

(** The part after the last [sep], itself included when [keep]. *)
Fixpoint after_last (sep : ascii) (keep : bool) (s : string) (acc : string)
  : string :=
  match s with
  | EmptyString => acc
  | String c r =>
      if Ascii.eqb c sep
      then after_last sep keep r (if keep then String c r else r)
      else after_last sep keep r acc
  end.

Definition filename (p : string) : string := after_last slash false p p.

(** The extension starts at the last dot of the file name; a dot that
    opens the file name starts none, and [..] has none. *)
Definition extension (p : string) : string :=
  match filename p with
  | EmptyString => EmptyString
  | String _ rest =>
      if String.eqb (filename p) ".." then EmptyString
      else after_last "."%char true rest EmptyString
  end.

Definition tolower (c : ascii) : ascii :=
  let n := nat_of_ascii c in
  if ((65 <=? n) && (n <=? 90))%nat then ascii_of_nat (n + 32) else c.

Fixpoint lowercase (s : string) : string :=
  match s with
  | EmptyString => EmptyString
  | String c r => String (tolower c) (lowercase r)
  end.

Definition exe_suffix (program : string) : string :=
  let ext := lowercase (extension program) in
  if String.eqb ext ".exe" || String.eqb ext ".bat" || String.eqb ext ".sh"
  then program else program +:+ ".exe".

(** Every argument between double quotes, after the prefix if any. *)
Definition render (argv : list string) (prefix : string) (esc : bool)
  : string :=
  String.concat " "
    (map (λ a, Win32.dquote +:+ a +:+ Win32.dquote)
         (if is_empty prefix then argv else prefix :: argv)).

Definition util (sep : ascii) : Util :=
  {| is_absolute := starts_with_slash;
     path_append := join;
     path_extension := extension;
     to_lowercase := lowercase;
     split_path_list := split_on sep EmptyString;
     is_ccache_executable := λ p, String.prefix "ccache" (filename p);
     add_exe_suffix := exe_suffix;
     format_argv_as_win32_command_string := render |}.

Definition posix : Util := util ":"%char.
Definition windows : Util := util ";"%char.

(** A filesystem given by its executable files, with their canonical
    paths, and by the contents of its readable files. *)
Definition filesystem (exes : list (string * string))
    (texts : list (string * string)) : FileSystem :=
  let look (l : list (string * string)) (p : string) :=
    snd <$> List.find (λ e, String.eqb (fst e) p) l in
  {| access_x_ok := λ p, bool_decide (is_Some (look exes p));
     is_regular_file := λ p,
       bool_decide (is_Some (look exes p))
       || bool_decide (is_Some (look texts p));
     canonical := λ p,
       match look exes p with
       | Some real => Some real
       | None => (λ _, p) <$> look texts p
       end;
     read_stream := look texts |}.

(** /usr/lib/ccache/gcc is a link to /usr/bin/ccache; /opt/bin/gcc is a
    link to the compiler /usr/bin/gcc. *)
Definition fs1 : FileSystem :=
  filesystem
    [("/usr/lib/ccache/gcc", "/usr/bin/ccache");
     ("/usr/bin/ccache", "/usr/bin/ccache");
     ("/opt/bin/gcc", "/usr/bin/gcc");
     ("/usr/bin/gcc", "/usr/bin/gcc")]
    [].

(** A wrapper installed under a name of its own, /usr/local/bin/wrapper,
    and linked as /usr/lib/wrap/gcc; compilers in /opt/bin and /usr/bin. *)
Definition fs3 : FileSystem :=
  filesystem
    [("/usr/lib/wrap/gcc", "/usr/local/bin/wrapper");
     ("/usr/local/bin/wrapper", "/usr/local/bin/wrapper");
     ("/opt/bin/gcc", "/opt/bin/gcc");
     ("/usr/bin/gcc", "/usr/bin/gcc")]
    [].

Fixpoint repeat_string (n : nat) (s : string) : string :=
  match n with
  | O => EmptyString
  | S n' => s +:+ repeat_string n' s
  end.

(** A Windows disk with a shell, a compiler and a script that starts
    with the shebang line. *)
Definition fs2 : FileSystem :=
  filesystem
    [("/bin/sh.exe", "/bin/sh.exe"); ("/bin/cc.exe", "/bin/cc.exe")]
    [("/work/run", "#!/bin/sh" +:+ String Win32.newline "echo hi")].

Definition env2 : gmap string string :=
  <["CCACHE_DETECT_SHEBANG" := "1"]> (<["PATH" := "/bin"]> ∅).

(** A launch in which every call succeeds; the process is in a job with
    limit flags [limit_flags]. *)
Definition api_ok (limit_flags : Z) : Win32.Api :=
  {| Win32.os_IsProcessInJob := Some true;
     Win32.os_QueryInformationJobObject := Some limit_flags;
     Win32.os_CreateJobObject := 77;
     Win32.os_SetInformationJobObject := true;
     Win32.os_get_osfhandle := λ fd, 100 + fd;
     Win32.os_GetStdHandle := λ h, 200 - h;
     Win32.os_tmp_suffix := Some ".a1b2c3.tmp";
     Win32.os_write_fd := true;
     Win32.os_CreateProcess := λ _ _ _, true;
     Win32.os_AssignProcessToJobObject := true;
     Win32.os_GetExitCodeProcess := 0 |}.

(** The same launch for a process that is in no job. *)
Definition api_not_in_job : Win32.Api :=
  {| Win32.os_IsProcessInJob := Some false;
     Win32.os_QueryInformationJobObject := None;
     Win32.os_CreateJobObject := 77;
     Win32.os_SetInformationJobObject := true;
     Win32.os_get_osfhandle := λ fd, 100 + fd;
     Win32.os_GetStdHandle := λ h, 200 - h;
     Win32.os_tmp_suffix := Some ".a1b2c3.tmp";
     Win32.os_write_fd := true;
     Win32.os_CreateProcess := λ _ _ _, true;
     Win32.os_AssignProcessToJobObject := true;
     Win32.os_GetExitCodeProcess := 3 |}.

(** A launch in which [IsProcessInJob] fails. *)
Definition api_job_query_fails : Win32.Api :=
  {| Win32.os_IsProcessInJob := None;
     Win32.os_QueryInformationJobObject := None;
     Win32.os_CreateJobObject := 77;
     Win32.os_SetInformationJobObject := true;
     Win32.os_get_osfhandle := λ fd, 100 + fd;
     Win32.os_GetStdHandle := λ h, 200 - h;
     Win32.os_tmp_suffix := Some ".a1b2c3.tmp";
     Win32.os_write_fd := true;
     Win32.os_CreateProcess := λ _ _ _, true;
     Win32.os_AssignProcessToJobObject := true;
     Win32.os_GetExitCodeProcess := 3 |}.

Definition long_argv : list string :=
  ["/bin/cc"; "-c"; repeat_string (90 * 100) "a"].

End Sample.
(** * Properties *)

(** ** The POSIX launcher *)

Module PosixFacts.
Import WaitStatus Posix.

(** A property checked on every integer of a range holds on the range. *)
Lemma forallb_seqZ (f : Z → bool) (lo len x : Z) :
  forallb f (seqZ lo len) = true → lo ≤ x < lo + len → f x = true.
Proof.
  intros Hall Hx. rewrite forallb_forall in Hall. apply Hall.
  apply list_elem_of_In, elem_of_seqZ. lia.
Qed.

Lemma exited_status (code : Z) :
  0 ≤ code ≤ 255 →
  WEXITSTATUS (status_of (Exited code)) = code
  ∧ WIFSIGNALED (status_of (Exited code)) = false.
Proof.
  intros Hc.
  pose (f := λ c, (WEXITSTATUS (status_of (Exited c)) =? c)
                  && negb (WIFSIGNALED (status_of (Exited c)))).
  assert (Hf : f code = true).
  { apply (forallb_seqZ f 0 256); [vm_compute; reflexivity | lia]. }
  unfold f in Hf. apply andb_true_iff in Hf as [H1 H2].
  apply Z.eqb_eq in H1. apply negb_true_iff in H2. auto.
Qed.

Lemma killed_status (sig : Z) (core : bool) :
  1 ≤ sig ≤ 126 →
  WEXITSTATUS (status_of (Killed sig core)) = 0
  ∧ WIFSIGNALED (status_of (Killed sig core)) = true.
Proof.
  intros Hs.
  pose (f := λ s, (WEXITSTATUS (status_of (Killed s core)) =? 0)
                  && WIFSIGNALED (status_of (Killed s core))).
  assert (Hf : f sig = true).
  { apply (forallb_seqZ f 1 126); [destruct core; vm_compute; reflexivity | lia]. }
  unfold f in Hf. apply andb_true_iff in Hf as [H1 H2].
  apply Z.eqb_eq in H1. auto.
Qed.

(** The value [execute] returns once the child is reaped. *)
Lemma execute_reaped (ctx : Context) (os : Os) (status : Z) :
  fork_result os ≠ -1 → fork_result os ≠ 0 →
  wait_loop (fork_result os) (waitpid_replies os) = Reaped status →
  execute ctx os = ({| compiler_pid := 0 |}, Returned (exit_outcome status)).
Proof.
  intros H1 H0 Hw. unfold execute. cbn [compiler_pid].
  destruct (Z.eqb_spec (fork_result os) (-1)); [contradiction |].
  destruct (Z.eqb_spec (fork_result os) 0); [contradiction |].
  rewrite Hw. reflexivity.
Qed.

(** The value returned for a status word, with the two tests in the
    order of the claim. *)
Lemma exit_outcome_cases (status : Z) :
  exit_outcome status =
    if WIFSIGNALED status && (WEXITSTATUS status =? 0) then -1
    else WEXITSTATUS status.
Proof. unfold exit_outcome. rewrite andb_comm. reflexivity. Qed.

(** A word with both fields set, which [waitpid] does not store, is
    answered with its exit field. *)
Example exit_outcome_signal_and_code : exit_outcome 0x109 = 1.
Proof. reflexivity. Qed.

Lemma wait_loop_skips (pid : Z) (interrupts rest : list WaitReply) :
  pid ≠ -1 →
  Forall (λ r, wr_result r = -1 ∧ wr_errno r = EINTR) interrupts →
  wait_loop pid (interrupts ++ rest) = wait_loop pid rest.
Proof.
  intros Hpid Hall. induction Hall as [| r rs [Hr He] _ IH]; [reflexivity |].
  cbn [app wait_loop]. rewrite Hr, He.
  destruct (Z.eqb_spec (-1) pid); [congruence |].
  cbn. exact IH.
Qed.

Lemma wait_loop_only_interrupts (pid : Z) (interrupts : list WaitReply) :
  pid ≠ -1 →
  Forall (λ r, wr_result r = -1 ∧ wr_errno r = EINTR) interrupts →
  wait_loop pid interrupts = Waiting.
Proof.
  intros Hpid Hall.
  rewrite <- (app_nil_r interrupts). rewrite wait_loop_skips; auto.
Qed.

(** C1.  For every child that [execute] reaps: when the child was
    terminated by a signal, [execute] returns the sentinel -1, although the
    exit field of the status word stored for it is zero; otherwise it
    returns the child's exit code.  In particular a normal exit with code 0
    is reported as 0, and a child killed by a signal, whose exit field is
    0, is reported as -1 and never as 0. *)
Theorem execute_exit_outcome (ctx : Context) (os : Os) (c : cause) :
  cause_ok c = true →
  fork_result os ≠ -1 → fork_result os ≠ 0 →
  wait_loop (fork_result os) (waitpid_replies os) = Reaped (status_of c) →
  let reported := (execute ctx os).2 in
  reported
    = Returned (match c with Killed _ _ => -1 | Exited code => code end)
  ∧ (∀ sig core, c = Killed sig core →
       WEXITSTATUS (status_of c) = 0
       ∧ reported = Returned (-1) ∧ reported ≠ Returned 0)
  ∧ (c = Exited 0 → reported = Returned 0).
Proof.
  intros Hok H1 H0 Hw reported. unfold reported.
  rewrite (execute_reaped ctx os _ H1 H0 Hw). cbn [snd].
  rewrite exit_outcome_cases.
  destruct c as [code | sig core]; cbn [cause_ok] in Hok;
    apply andb_true_iff in Hok as [Ha Hb]; apply Z.leb_le in Ha, Hb.
  - destruct (exited_status code) as [He Hs]; [lia |].
    rewrite Hs, He. cbn [andb].
    split; [reflexivity | split; [discriminate |]].
    intros [= ->]. reflexivity.
  - destruct (killed_status sig core) as [He Hs]; [lia |].
    rewrite Hs, He. cbn.
    split; [reflexivity | split; [| discriminate]].
    intros sig' core' _. split; [reflexivity | split; [reflexivity |]].
    discriminate.
Qed.

(** A child killed by signal 9, reaped after one interruption. *)
Lemma execute_exit_outcome_witness :
  (execute {| compiler_pid := 0 |} os_killed).2 = Returned (-1).
Proof.
  apply (execute_exit_outcome {| compiler_pid := 0 |} os_killed
           (Killed 9 false));
    [reflexivity | discriminate | discriminate | reflexivity].
Defined.

(** C6. The wait loop takes up [waitpid] again after every failure with
    EINTR, however many there are: the interruptions leave no mark on
    what [execute] does, and as long as there are only interruptions
    [execute] keeps waiting.  Any other failure of [waitpid] makes
    [execute] throw [core::Fatal] instead of returning. *)
Theorem execute_wait_retries
    (ctx : Context) (os : Os) (interrupts : list WaitReply) :
  fork_result os ≠ -1 → fork_result os ≠ 0 →
  Forall (λ r, wr_result r = -1 ∧ wr_errno r = EINTR) interrupts →
  (∀ replies,
     execute ctx (with_replies os (interrupts ++ replies))
     = execute ctx (with_replies os replies))
  ∧ (execute ctx (with_replies os interrupts)).2 = Blocked
  ∧ (∀ r rest,
       wait_failure (fork_result os) r = true →
       (execute ctx (with_replies os (interrupts ++ r :: rest))).2
       = Fatal "waitpid failed" (wr_errno r)).
Proof.
  intros H1 H0 Hall. split; [| split].
  - intros replies. unfold execute, with_replies.
    cbn [fork_result waitpid_replies compiler_pid fork_errno execv_result].
    rewrite wait_loop_skips by assumption. reflexivity.
  - unfold execute, with_replies.
    cbn [fork_result waitpid_replies compiler_pid fork_errno execv_result].
    destruct (Z.eqb_spec (fork_result os) (-1)); [contradiction |].
    destruct (Z.eqb_spec (fork_result os) 0); [contradiction |].
    rewrite wait_loop_only_interrupts by assumption. reflexivity.
  - intros r rest Hf. unfold execute, with_replies.
    cbn [fork_result waitpid_replies compiler_pid fork_errno execv_result].
    destruct (Z.eqb_spec (fork_result os) (-1)); [contradiction |].
    destruct (Z.eqb_spec (fork_result os) 0); [contradiction |].
    rewrite wait_loop_skips by assumption. cbn [wait_loop].
    unfold wait_failure in Hf. apply andb_true_iff in Hf as [Ha Hb].
    apply negb_true_iff in Ha, Hb. rewrite Ha, Hb. reflexivity.
Qed.

Lemma execute_wait_retries_witness :
  execute {| compiler_pid := 0 |}
    (with_replies os_killed
       ([interrupted 0; interrupted 0; interrupted 0]
        ++ [{| wr_result := 4242; wr_status := 0x300; wr_errno := 0 |}]))
  = ({| compiler_pid := 0 |}, Returned 3).
Proof.
  refine (eq_trans
    (proj1 (execute_wait_retries {| compiler_pid := 0 |} os_killed
              [interrupted 0; interrupted 0; interrupted 0] _ _ _) _) _).
  - discriminate.
  - discriminate.
  - repeat constructor.
  - reflexivity.
Defined.

End PosixFacts.

(** ** The resolver *)

Module ResolverFacts.
Import Resolver.

Lemma fst_bind {A B} (m : Eff A) (f : A → Eff B) :
  (m ≫= f).1 = (f m.1).1.
Proof.
  unfold mbind, Eff_bind. destruct m as [a t1]. cbn [fst].
  destruct (f a) as [b t2]. reflexivity.
Qed.

Lemma find_first {A} (f : A → bool) (l : list A) (x : A) :
  List.find f l = Some x ↔
  ∃ before after,
    l = (before ++ x :: after)%list ∧ f x = true
    ∧ Forall (λ y, f y = false) before.
Proof.
  induction l as [| a l IH]; cbn [List.find].
  - split; [discriminate |]. intros (b & r & H & _). destruct b; discriminate.
  - destruct (f a) eqn:Ha.
    + split.
      * intros [= ->]. exists [], l. auto.
      * intros ([| b bs] & r & Hl & Hx & Hb).
        -- injection Hl as -> _. reflexivity.
        -- injection Hl as -> _. inversion Hb; congruence.
    + rewrite IH. split.
      * intros (b & r & -> & Hx & Hb). exists (a :: b), r. auto.
      * intros ([| b bs] & r & Hl & Hx & Hb).
        -- injection Hl as -> _. congruence.
        -- injection Hl as -> ->. inversion Hb. eauto.
Qed.

Lemma find_nothing {A} (f : A → bool) (l : list A) :
  List.find f l = None ↔ Forall (λ y, f y = false) l.
Proof.
  induction l as [| a l IH]; cbn [List.find].
  - split; auto.
  - destruct (f a) eqn:Ha.
    + split; [discriminate |]. inversion 1; congruence.
    + rewrite IH. split; [auto | inversion 1; auto].
Qed.

Lemma find_append {A} (f : A → bool) (l1 l2 : list A) :
  List.find f (l1 ++ l2) =
    match List.find f l1 with
    | Some x => Some x
    | None => List.find f l2
    end.
Proof.
  induction l1 as [| a l1 IH]; cbn [app List.find]; [reflexivity |].
  destruct (f a); auto.
Qed.

Section Scan.
Context `{U : Util} (plat : Platform) (fs : FileSystem).

Lemma scan_candidates_find (re : string) (cs : list string) :
  (scan_candidates plat fs re cs).1 = List.find (valid plat fs re) cs.
Proof.
  induction cs as [| c cs IH]; [reflexivity |].
  cbn [scan_candidates List.find]. rewrite fst_bind.
  unfold valid, exists_executable, candidate_exists at 1. cbn [fst].
  destruct (match plat with
            | POSIX => access_x_ok fs c
            | WIN32 => is_regular_file fs c
            end); cbn [andb]; [| exact IH].
  rewrite fst_bind. unfold fs_canonical. cbn [fst].
  destruct (canonical fs c) as [rc |]; [| exact IH].
  unfold acceptable.
  destruct (negb (String.eqb rc re) && negb (is_ccache_executable rc));
    [reflexivity | exact IH].
Qed.

Lemma scan_dirs_find (re name : string) (dirs : list string) :
  (scan_dirs plat fs re name dirs).1
  = List.find (valid plat fs re)
      (flat_map (λ dir, candidates plat dir name) dirs).
Proof.
  induction dirs as [| d dirs IH]; [reflexivity |].
  cbn [scan_dirs flat_map]. rewrite fst_bind, find_append.
  rewrite scan_candidates_find.
  destruct (List.find (valid plat fs re) (candidates plat d name));
    [reflexivity | exact IH].
Qed.

Lemma real_exclude_value (exclude_path : option string) :
  (real_exclude fs exclude_path).1 = canonical_exclude fs exclude_path.
Proof.
  destruct exclude_path as [e |]; [| reflexivity].
  cbn [real_exclude canonical_exclude]. rewrite fst_bind. reflexivity.
Qed.

Lemma find_candidate_find (name path_list : string)
    (exclude_path : option string) :
  (find_candidate plat fs name path_list exclude_path).1
  = List.find (valid plat fs (canonical_exclude fs exclude_path))
      (all_candidates plat name path_list).
Proof.
  unfold find_candidate, all_candidates, directories.
  destruct (is_empty path_list); [reflexivity |].
  rewrite fst_bind, scan_dirs_find, real_exclude_value. reflexivity.
Qed.

(** What holds of a candidate the resolver returns. *)
Lemma returned_candidate (name path_list : string)
    (exclude_path : option string) (c : string) :
  (find_candidate plat fs name path_list exclude_path).1 = Some c →
  exists_executable plat fs c = true
  ∧ ∃ rc, canonical fs c = Some rc
          ∧ rc ≠ canonical_exclude fs exclude_path
          ∧ is_ccache_executable rc = false.
Proof.
  intros Hc. rewrite find_candidate_find in Hc.
  apply find_some in Hc as [_ Hv]. unfold valid in Hv.
  apply andb_true_iff in Hv as [Hex Hv]. split; [exact Hex |].
  destruct (canonical fs c) as [rc |]; [| discriminate].
  apply andb_true_iff in Hv as [Hne Hcc].
  apply negb_true_iff in Hne, Hcc. apply String.eqb_neq in Hne. eauto.
Qed.

End Scan.

Section Claims.
Context `{U : Util} (plat : Platform) (fs : FileSystem).


(** The absent or unset cases of line 363..370, one by one. *)
Lemma find_executable_empty_PATH
    (env : gmap string string) (name exclude_path : string) :
  is_absolute name = false →
  env !! "PATH" = Some EmptyString →
  find_executable plat fs EmptyString env name exclude_path
  = (Val EmptyString, [Log "No PATH variable"]).
Proof.
  intros Habs Henv. unfold find_executable. rewrite Habs.
  cbn [is_empty String.eqb]. rewrite Henv. reflexivity.
Qed.

(** C5, as the code has it.  With an empty configured path list and no
    PATH variable in the environment, [find_executable] assigns the
    null pointer returned by [getenv] to a [std::string]: the call
    neither logs nor returns an empty result. *)
Theorem find_executable_unset_PATH
    (env : gmap string string) (name exclude_path : string) :
  is_absolute name = false →
  env !! "PATH" = None →
  find_executable plat fs EmptyString env name exclude_path
  = (Undefined "std::string assigned from a null pointer", []).
Proof.
  intros Habs Henv. unfold find_executable. rewrite Habs.
  cbn [is_empty String.eqb]. rewrite Henv. reflexivity.
Qed.

(** C7. An absolute name is returned as it is, whatever the path list
    and the exclude path are; nothing is looked up, neither in the
    path list nor on the filesystem. *)
Theorem find_executable_absolute
    (config_path : string) (env : gmap string string)
    (name exclude_path : string) :
  is_absolute name = true →
  find_executable plat fs config_path env name exclude_path
  = (Val name, []).
Proof. intros Habs. unfold find_executable. rewrite Habs. reflexivity. Qed.

(** C9. Called with an empty path list, [find_executable_in_path]
    returns the empty path at once: the exclude path is not
    canonicalized, the filesystem is not queried, nothing is logged. *)
Theorem find_executable_in_path_empty
    (name : string) (exclude_path : option string) :
  find_executable_in_path plat fs name EmptyString exclude_path
  = (EmptyString, []).
Proof. reflexivity. Qed.

(** C10, amended.  When the exclude path cannot be canonicalized the
    empty path takes the place of its canonical form, so every
    nonempty canonical form passes comparison (b) and only the ccache
    test (c) is left; still, the path returned is never the exclude
    path itself, whose canonicalization fails for the candidate as it
    did for the exclude path. *)
Theorem exclude_not_canonical
    (name path_list e : string) :
  canonical fs e = None →
  (real_exclude fs (Some e)).1 = EmptyString
  ∧ (∀ rc, rc ≠ EmptyString →
           acceptable EmptyString rc = negb (is_ccache_executable rc))
  ∧ (∀ c, (find_candidate plat fs name path_list (Some e)).1 = Some c →
          c ≠ e
          ∧ exists_executable plat fs c = true
          ∧ ∃ rc, canonical fs c = Some rc
                  ∧ is_ccache_executable rc = false).
Proof.
  intros He. split; [| split].
  - rewrite real_exclude_value. cbn [canonical_exclude]. rewrite He.
    reflexivity.
  - intros rc Hrc. unfold acceptable.
    destruct (String.eqb_spec rc EmptyString); [contradiction |].
    reflexivity.
  - intros c Hc.
    destruct (returned_candidate _ _ _ _ _ _ Hc) as (Hex & rc & Hrc & _ & Hcc).
    split; [| split; [exact Hex | eauto]].
    intros ->. congruence.
Qed.

End Claims.

(** The link in the first directory resolves to the exclude path and is
    passed over, although the two differ as strings; of the two compilers
    left, the one in the earlier directory wins. *)
Example resolver_symlink_equivalence :
  find_executable_in_path (U := Sample.posix) POSIX Sample.fs3 "gcc"
    "/usr/lib/wrap:/usr/bin:/opt/bin" (Some "/usr/local/bin/wrapper")
  = ("/usr/bin/gcc",
     [FsCanonical "/usr/local/bin/wrapper";
      FsExists "/usr/lib/wrap/gcc"; FsCanonical "/usr/lib/wrap/gcc";
      FsExists "/usr/bin/gcc"; FsCanonical "/usr/bin/gcc"]).
Proof. reflexivity. Qed.

Example resolver_nothing_left :
  (find_executable_in_path (U := Sample.posix) POSIX Sample.fs3 "gcc"
     "/usr/lib/wrap:/nowhere" (Some "/usr/local/bin/wrapper")).1
  = EmptyString.
Proof. reflexivity. Qed.

Example resolver_exe_variant :
  (find_executable_in_path (U := Sample.windows) WIN32 Sample.fs2 "cc"
     "/nowhere;/bin" None).1
  = "/bin/cc.exe".
Proof. reflexivity. Qed.

Lemma find_executable_unset_PATH_witness :
  find_executable (U := Sample.posix) POSIX Sample.fs1 EmptyString ∅
    "gcc" "/usr/lib/ccache/gcc"
  = (Undefined "std::string assigned from a null pointer", []).
Proof.
  apply (find_executable_unset_PATH (U := Sample.posix));
    [reflexivity | reflexivity].
Defined.

Lemma find_executable_absolute_witness :
  find_executable (U := Sample.posix) POSIX Sample.fs1
    "/usr/lib/ccache:/usr/bin" ∅ "/opt/bin/gcc" "/usr/lib/ccache/gcc"
  = (Val "/opt/bin/gcc", []).
Proof.
  apply (find_executable_absolute (U := Sample.posix)). reflexivity.
Defined.

(** With the exclude path given as the bare name [gcc], which does not
    canonicalize, the first directory's link to ccache is turned down by
    the ccache test alone. *)
Lemma exclude_not_canonical_witness :
  (real_exclude Sample.fs1 (Some "gcc")).1 = EmptyString
  ∧ (find_executable_in_path (U := Sample.posix) POSIX Sample.fs1 "gcc"
       "/usr/lib/ccache:/opt/bin" (Some "gcc")).1 = "/opt/bin/gcc".
Proof.
  split.
  - apply (exclude_not_canonical (U := Sample.posix) POSIX Sample.fs1
             "gcc" "/usr/lib/ccache:/opt/bin" "gcc").
    reflexivity.
  - reflexivity.
Defined.

(** C10 as stated fails: there is no host, filesystem, name and path
    list for which an exclude path that cannot be canonicalized is the
    candidate returned. *)
Lemma exclude_candidate_never_returned :
  ¬ ∃ (U : Util) (plat : Platform) (fs : FileSystem)
      (name path_list e : string),
      canonical fs e = None
      ∧ (find_candidate plat fs name path_list (Some e)).1 = Some e.
Proof.
  intros (U & plat & fs & name & path_list & e & He & Hret).
  destruct (returned_candidate _ _ _ _ _ _ Hret) as (_ & rc & Hrc & _).
  congruence.
Qed.

End ResolverFacts.

(** ** The Windows launcher *)

Module Win32Facts.
Import Win32.

Section Facts.
Context `{U : Util} (fs : FileSystem) (env : gmap string string).

Lemma pick_Did {X} (pick : Call → list X) (t : list Event) :
  (∀ e, pick (Did e) = []) → flat_map pick (map Did t) = [].
Proof.
  intros Hp. induction t as [| e t IH]; [reflexivity |].
  cbn [map flat_map]. rewrite Hp, IH. reflexivity.
Qed.

Lemma tmp_name_not_empty (temp_dir suffix : string) :
  String.eqb ((temp_dir +:+ "/cmd_args") +:+ suffix) EmptyString = false.
Proof. apply String.eqb_neq. destruct temp_dir; discriminate. Qed.

Ltac unfold_launch :=
  unfold win32execute, outcome_of, win32execute_steps, guarded_launch,
    prelude, job_policy, make_job,
    startup_handles, command_line, spawn_and_wait, finally_remove,
    tmp_file_remover, TemporaryFile_create, create_file, write_fd,
    set_tmp_file_path, log, ev, lift, stop, mbind, Launch_bind, mret,
    Launch_ret, fmap, option_fmap, option_map.

Ltac branch :=
  match goal with
  | |- context [match ?x with _ => _ end] =>
      lazymatch x with
      | context [match _ with _ => _ end] => fail
      | _ => destruct x eqn:?
      end
  end; cbn -[Z.lor]; rewrite ?tmp_name_not_empty.

Ltac read_trace :=
  unfold jobs_created, jobs_joined, creation_flags, command_lines,
    tmp_created, tmp_written, tmp_removed;
  rewrite ?flat_map_app, ?pick_Did by reflexivity; cbn -[Z.lor].

(** *** Shell detection *)

Lemma fgets_chars_length (room : nat) (stream : string) :
  (String.length (fgets_chars room stream) ≤ room)%nat.
Proof.
  revert stream. induction room as [| room IH]; intros [| c rest]; cbn;
    try lia.
  destruct (Ascii.eqb c newline); cbn; [lia |].
  specialize (IH rest). lia.
Qed.

Lemma c_str_length (buf : string) :
  (String.length (c_str buf) ≤ String.length buf)%nat.
Proof.
  induction buf as [| c rest IH]; cbn; [lia |].
  destruct (Ascii.eqb c Ascii.zero); cbn; lia.
Qed.

(** The call [fgets(buf, sizeof(buf) - 1, fp)] stores at most eight
    characters, one fewer than the marker it is compared with. *)
Lemma shebang_never_read (stream : string) :
  String.eqb (c_str (fgets (sizeof_buf - 1) stream)) "#!/bin/sh" = false.
Proof.
  apply String.eqb_neq. intros Heq.
  pose proof (c_str_length (fgets (sizeof_buf - 1) stream)) as H1.
  pose proof (fgets_chars_length (sizeof_buf - 1 - 1) stream) as H2.
  unfold fgets in Heq, H1. rewrite Heq in H1. cbn in H1, H2. lia.
Qed.

Example fgets_as_called :
  c_str (fgets (sizeof_buf - 1) ("#!/bin/sh" +:+ String newline "echo hi"))
  = "#!/bin/s".
Proof. reflexivity. Qed.

Example fgets_with_the_whole_buffer :
  c_str (fgets sizeof_buf ("#!/bin/sh" +:+ String newline "echo hi"))
  = "#!/bin/sh".
Proof. reflexivity. Qed.

(** C4, as the code has it.  For a path whose extension is not .sh no
    shell is resolved, whatever the file starts with and whether or not
    CCACHE_DETECT_SHEBANG is set: the comparison with the shebang marker
    cannot succeed. *)
Theorem win32getshell_without_sh_extension (path : string) :
  String.eqb (to_lowercase (path_extension path)) ".sh" = false →
  (win32getshell fs env path).1 = EmptyString.
Proof.
  intros Hext. unfold win32getshell. rewrite Hext.
  rewrite ResolverFacts.fst_bind. cbn [mret Eff_ret fst is_empty String.eqb andb].
  destruct (bool_decide (is_Some (env !! "CCACHE_DETECT_SHEBANG")));
    [| reflexivity].
  rewrite ResolverFacts.fst_bind.
  destruct (read_stream fs path) as [stream |]; [| reflexivity].
  rewrite shebang_never_read. reflexivity.
Qed.

(** *** The launcher *)

(** Reading a trace, the lifted events skipped. *)
Ltac read_more :=
  unfold jobs_created, jobs_joined, creation_flags, command_lines,
    tmp_created, tmp_written, tmp_removed, applications, job_limits;
  cbn [fst snd files trace tmp_file_path];
  rewrite ?flat_map_app; rewrite ?pick_Did by reflexivity;
  cbn [flat_map app].

Lemma tmp_name_not_empty' (temp_dir suffix : string) :
  is_empty ((temp_dir +:+ "/cmd_args") +:+ suffix) = false.
Proof. apply tmp_name_not_empty. Qed.

(** The run of a launch, kept in a hypothesis and taken apart there. *)
Ltac unfold_launch_in H :=
  unfold win32execute, outcome_of, win32execute_steps, guarded_launch,
    prelude, job_policy, make_job,
    startup_handles, command_line, spawn_and_wait, finally_remove,
    tmp_file_remover, TemporaryFile_create, create_file, write_fd,
    set_tmp_file_path, log, ev, lift, stop, mbind, Launch_bind, mret,
    Launch_ret, fmap, option_fmap, option_map in H.

Ltac tidy_in H :=
  cbn [fst snd files trace tmp_file_path negb andb orb] in H;
  rewrite ?tmp_name_not_empty' in H;
  change (is_empty EmptyString) with true in H;
  cbn [fst snd files trace tmp_file_path negb andb orb] in H.

Ltac branch_in H :=
  match type of H with
  | context [match ?x with _ => _ end] =>
      lazymatch x with
      | context [match _ with _ => _ end] => fail
      | os_write_fd _ => fail
      | _ => destruct x eqn:?
      end
  end;
  repeat match goal with
         | E : _ = _ |- _ =>
             tryif constr_eq E H then fail else rewrite E in H
         end;
  tidy_in H.

(** Case analysis on the guarded steps, along the tests they make. *)
Ltac guarded_cases r H :=
  unfold_launch_in H; tidy_in H;
  repeat match goal with
         | E : _ = _ |- _ =>
             tryif constr_eq E H then fail else rewrite E in H
         end;
  tidy_in H; repeat branch_in H;
  rewrite <- ?app_assoc in H; subst r;
  cbn [fst snd files trace tmp_file_path outcome_of].

(** The steps before the finalizer leave the disk alone and make no call
    that concerns a process or a temporary file; the shell they hand on is
    the one [win32getshell] found. *)
Lemma prelude_frame (api : Api) (path : string) (fd_stdout fd_stderr : Z)
    (s : LState) :
  let r := prelude fs env api path fd_stdout fd_stderr s in
  files r.2 = files s ∧ tmp_file_path r.2 = tmp_file_path s
  ∧ (∃ calls, trace r.2 = (trace s ++ calls)%list
              ∧ command_lines calls = [] ∧ tmp_created calls = []
              ∧ tmp_written calls = [] ∧ tmp_removed calls = [])
  ∧ (∀ flags job sh, r.1 = inr (flags, job, sh) →
                     sh = (win32getshell fs env path).1)
  ∧ (∀ o, r.1 = inl o → ∃ code, o = Returned code).
Proof.
  unfold_launch. destruct s as [f t p]. cbn -[Z.lor].
  repeat branch.
  all: split; [reflexivity | split; [reflexivity | split; [| split]]].
  all: try (intros ? ? ? [= <- <- <-]; reflexivity).
  all: try (intros; discriminate).
  all: try (intros ? [= <-]; eauto).
  all: rewrite <- ?app_assoc; eexists; (split; [reflexivity |]).
  all: read_trace; auto.
Qed.

(** When the steps before the finalizer do not end the launch: they leave
    the disk alone, hand on the shell [win32getshell] found, and have made
    no call about a process or a temporary file; the job handle and the
    creation flags they hand on are those the current job calls for, and a
    job they have created has got its limits. *)
Lemma prelude_passes (api : Api) (path : string) (fd_stdout fd_stderr : Z)
    (s : LState) (flags job : Z) (sh0 : string) :
  let r := prelude fs env api path fd_stdout fd_stderr s in
  r.1 = inr (flags, job, sh0) →
  sh0 = (win32getshell fs env path).1
  ∧ files r.2 = files s ∧ tmp_file_path r.2 = tmp_file_path s
  ∧ (∃ calls, trace r.2 = (trace s ++ calls)%list
       ∧ command_lines calls = [] ∧ creation_flags calls = []
       ∧ tmp_created calls = [] ∧ tmp_written calls = []
       ∧ tmp_removed calls = [] ∧ jobs_joined calls = []
       ∧ jobs_created calls = (if negb (job =? 0) then [job] else [])
       ∧ job_limits calls
         = (if negb (job =? 0)
            then [Z.lor JOB_OBJECT_LIMIT_KILL_ON_JOB_CLOSE
                    JOB_OBJECT_LIMIT_SILENT_BREAKAWAY_OK]
            else []))
  ∧ ((os_IsProcessInJob api = Some false
      ∧ flags = CREATE_SUSPENDED ∧ job = os_CreateJobObject api
      ∧ (job =? 0) = false)
     ∨ (∃ limit_flags,
          os_IsProcessInJob api = Some true
          ∧ os_QueryInformationJobObject api = Some limit_flags
          ∧ ((is_kill_active limit_flags = false
              ∧ allow_break_away limit_flags = true
              ∧ flags = Z.lor CREATE_BREAKAWAY_FROM_JOB CREATE_SUSPENDED
              ∧ job = os_CreateJobObject api ∧ (job =? 0) = false)
             ∨ ((is_kill_active limit_flags = true
                 ∨ allow_break_away limit_flags = false)
                ∧ flags = 0 ∧ job = 0)))).
Proof.
  unfold_launch. destruct s as [f t p]. cbn -[Z.lor].
  repeat branch.
  all: intros Hr; try discriminate Hr.
  all: injection Hr as <- <- <-.
  all: try (exfalso;
            repeat match goal with
                   | H : (_ =? _) = _ |- _ => rewrite H in *
                   end;
            cbn in *; congruence).
  all: split; [reflexivity | split; [reflexivity | split; [reflexivity |]]].
  all: split;
    [ rewrite <- ?app_assoc; eexists; (split; [reflexivity |]); read_more;
      repeat split; reflexivity |].
  all: try (left; repeat split; (reflexivity || assumption)).
  all: right; eexists; split; [reflexivity | split; [reflexivity |]].
  all: match goal with
       | H : negb (is_kill_active _) && allow_break_away _ = true |- _ =>
           apply andb_true_iff in H as [Hk Hb]; apply negb_true_iff in Hk;
           left; repeat split; auto
       | H : negb (is_kill_active _) && allow_break_away _ = false |- _ =>
           apply andb_false_iff in H as [Hk | Hb];
           [apply negb_false_iff in Hk |]; right; repeat split; auto
       end.
Qed.

(** The tests met on the way, brought into the goal. *)
Ltac settle :=
  repeat match goal with
         | E : negb _ = true |- _ => apply negb_true_iff in E
         | E : negb _ = false |- _ => apply negb_false_iff in E
         end;
  repeat match goal with
         | E : ?b = true |- context [?b] => rewrite E
         | E : ?b = false |- context [?b] => rewrite E
         end;
  cbn [negb andb orb].

(** The guarded steps with a command line of at most 8192 characters:
    the process is created from the command line as rendered, and no
    temporary file comes into play. *)
Lemma guarded_launch_short (api : Api) (path : string) (argv : list string)
    (doreturn : bool) (fd_stdout fd_stderr : Z) (temp_dir : string)
    (flags job : Z) (sh : string) (s : LState) :
  let full_path := add_exe_suffix (if negb (is_empty sh) then sh else path) in
  let args := format_argv_as_win32_command_string argv sh false in
  let r := guarded_launch api path argv doreturn fd_stdout fd_stderr temp_dir
             flags job sh s in
  tmp_file_path s = EmptyString →
  Z.of_nat (String.length args) ≤ 8192 →
  files r.2 = files s
  ∧ ∃ calls, trace r.2 = (trace s ++ calls)%list
      ∧ command_lines calls = [args] ∧ creation_flags calls = [flags]
      ∧ tmp_created calls = [] ∧ tmp_written calls = []
      ∧ tmp_removed calls = []
      ∧ jobs_created calls = [] ∧ job_limits calls = []
      ∧ jobs_joined calls
        = if os_CreateProcess api full_path args flags && negb (job =? 0)
          then [job] else [].
Proof.
  intros full_path args r Hp Hshort. apply Z.ltb_ge in Hshort.
  destruct s as [f t p]. cbn in Hp. subst p.
  remember r as run eqn:Hrun. subst r args full_path. symmetry in Hrun.
  guarded_cases run Hrun.
  all: split; [reflexivity |].
  all: eexists; (split; [reflexivity |]).
  all: read_more; settle.
  all: repeat split; reflexivity.
Qed.

(** The guarded steps with a longer command line and a temporary file
    that could be created: the file is created and written, and the
    process is created from the command line that refers to it.  Where the
    steps end in [exit], the file is left; where they return, it has been
    removed. *)
Lemma guarded_launch_long (api : Api) (path : string) (argv : list string)
    (doreturn : bool) (fd_stdout fd_stderr : Z) (temp_dir : string)
    (flags job : Z) (sh : string) (s : LState) (suffix : string) :
  let full_path := add_exe_suffix (if negb (is_empty sh) then sh else path) in
  let args := format_argv_as_win32_command_string argv sh false in
  let tmp := (temp_dir +:+ "/cmd_args") +:+ suffix in
  let data := format_argv_as_win32_command_string (tail argv) sh true in
  let cmd := response_file_command full_path tmp in
  let r := guarded_launch api path argv doreturn fd_stdout fd_stderr temp_dir
             flags job sh s in
  tmp_file_path s = EmptyString →
  8192 < Z.of_nat (String.length args) →
  os_tmp_suffix api = Some suffix →
  ∃ calls, trace r.2 = (trace s ++ calls)%list
    ∧ command_lines calls = [cmd] ∧ creation_flags calls = [flags]
    ∧ tmp_created calls = [tmp] ∧ tmp_written calls = [(tmp, data)]
    ∧ jobs_created calls = [] ∧ job_limits calls = []
    ∧ jobs_joined calls
      = (if os_CreateProcess api full_path cmd flags && negb (job =? 0)
         then [job] else [])
    ∧ if os_CreateProcess api full_path cmd flags
         && ((job =? 0) || os_AssignProcessToJobObject api)
         && negb doreturn
      then outcome_of r.1 = Exited (to_int (os_GetExitCodeProcess api))
           ∧ files r.2 !! tmp
             = Some (if os_write_fd api then data else EmptyString)
           ∧ tmp_removed calls = []
      else (∃ code, outcome_of r.1 = Returned code)
           ∧ files r.2 !! tmp = None ∧ tmp_removed calls = [tmp].
Proof.
  intros full_path args tmp data cmd r Hp Hlong Hsuffix.
  apply Z.ltb_lt in Hlong.
  destruct s as [f t p]. cbn in Hp. subst p.
  remember r as run eqn:Hrun. subst r cmd tmp data args full_path.
  symmetry in Hrun.
  guarded_cases run Hrun.
  all: eexists; (split; [reflexivity |]).
  all: read_more; settle.
  all: repeat split; try reflexivity.
  all: try (eexists; reflexivity).
  all: try apply lookup_delete_eq.
  all: destruct (os_write_fd api); rewrite ?lookup_insert_eq; reflexivity.
Qed.

(** The guarded steps with a longer command line when no temporary file
    can be created: [core::Fatal] is thrown and nothing else is done. *)
Lemma guarded_launch_throws (api : Api) (path : string) (argv : list string)
    (doreturn : bool) (fd_stdout fd_stderr : Z) (temp_dir : string)
    (flags job : Z) (sh : string) (s : LState) :
  let args := format_argv_as_win32_command_string argv sh false in
  tmp_file_path s = EmptyString →
  8192 < Z.of_nat (String.length args) →
  os_tmp_suffix api = None →
  guarded_launch api path argv doreturn fd_stdout fd_stderr temp_dir
    flags job sh s
  = (inl (Thrown "TemporaryFile::create"), s).
Proof.
  intros args Hp Hlong Hsuffix. apply Z.ltb_lt in Hlong.
  unfold_launch. fold args. rewrite Hlong, Hsuffix.
  destruct s as [f t p]. cbn in Hp. subst p. reflexivity.
Qed.

(** A launch whose first steps hand on creation flags, a job and a
    shell: the calls it makes and how it ends, by the length of the
    command line. *)
Lemma win32execute_launch
    (api : Api) (path : string) (argv : list string) (doreturn : bool)
    (fd_stdout fd_stderr : Z) (temp_dir : string)
    (disk : gmap string string) (flags job : Z) (sh0 : string) :
  let sh := (win32getshell fs env path).1 in
  let full_path := add_exe_suffix (if negb (is_empty sh) then sh else path) in
  let args := format_argv_as_win32_command_string argv sh false in
  let data := format_argv_as_win32_command_string (tail argv) sh true in
  let run := win32execute fs env api path argv doreturn fd_stdout fd_stderr
               temp_dir disk in
  let tr := trace run.2 in
  (prelude fs env api path fd_stdout fd_stderr
     {| files := disk; trace := []; tmp_file_path := EmptyString |}).1
  = inr (flags, job, sh0) →
  jobs_created tr = (if negb (job =? 0) then [job] else [])
  ∧ job_limits tr
    = (if negb (job =? 0)
       then [Z.lor JOB_OBJECT_LIMIT_KILL_ON_JOB_CLOSE
               JOB_OBJECT_LIMIT_SILENT_BREAKAWAY_OK]
       else [])
  ∧ if 8192 <? Z.of_nat (String.length args) then
      match os_tmp_suffix api with
      | None =>
          run.1 = Thrown "TemporaryFile::create" ∧ files run.2 = disk
          ∧ command_lines tr = [] ∧ creation_flags tr = []
          ∧ tmp_created tr = [] ∧ jobs_joined tr = []
      | Some suffix =>
          let tmp := (temp_dir +:+ "/cmd_args") +:+ suffix in
          let cmd := response_file_command full_path tmp in
          command_lines tr = [cmd] ∧ creation_flags tr = [flags]
          ∧ tmp_created tr = [tmp] ∧ tmp_written tr = [(tmp, data)]
          ∧ jobs_joined tr
            = (if os_CreateProcess api full_path cmd flags
                  && negb (job =? 0)
               then [job] else [])
          ∧ if os_CreateProcess api full_path cmd flags
               && ((job =? 0) || os_AssignProcessToJobObject api)
               && negb doreturn
            then run.1 = Exited (to_int (os_GetExitCodeProcess api))
                 ∧ files run.2 !! tmp
                   = Some (if os_write_fd api then data else EmptyString)
                 ∧ tmp_removed tr = []
            else (∃ code, run.1 = Returned code)
                 ∧ files run.2 !! tmp = None ∧ tmp_removed tr = [tmp]
      end
    else
      command_lines tr = [args] ∧ creation_flags tr = [flags]
      ∧ tmp_created tr = [] ∧ files run.2 = disk
      ∧ jobs_joined tr
        = (if os_CreateProcess api full_path args flags && negb (job =? 0)
           then [job] else []).
Proof.
  intros sh full_path args data run tr Hpre.
  pose proof (prelude_passes api path fd_stdout fd_stderr _ flags job sh0
                Hpre)
    as (Hsh & Hf & Hp
        & (calls & Ht & Hc1 & Hc2 & Hc3 & Hc4 & Hc5 & Hc6 & Hc7 & Hc8) & _).
  unfold tr, run, win32execute, win32execute_steps, mbind, Launch_bind.
  destruct (prelude fs env api path fd_stdout fd_stderr _)
    as [[o | [[flags' job'] sh']] s1];
    cbn [fst snd trace files tmp_file_path app] in Hpre, Hf, Hp, Ht |- *;
    [discriminate Hpre |].
  injection Hpre as -> -> ->. rewrite Hsh. fold sh.
  unfold jobs_created, job_limits, command_lines, creation_flags,
    tmp_created, tmp_written, tmp_removed, jobs_joined in *.
  destruct (Z.ltb_spec 8192 (Z.of_nat (String.length args))) as [Hlong | Hshort].
  - destruct (os_tmp_suffix api) as [suffix |] eqn:Hsuffix.
    + destruct (guarded_launch_long api path argv doreturn fd_stdout
                  fd_stderr temp_dir flags job sh s1 suffix Hp Hlong Hsuffix)
        as (more & Hmore & Hm1 & Hm2 & Hm3 & Hm4 & Hm5 & Hm6 & Hm7 & Hend).
      fold full_path in Hm1, Hm7, Hend. fold data in Hm4, Hend.
      unfold jobs_created, job_limits, command_lines, creation_flags,
        tmp_created, tmp_written, tmp_removed, jobs_joined in *.
      cbn zeta in *. rewrite Hmore, Ht.
      rewrite !flat_map_app, Hc1, Hc2, Hc3, Hc4, Hc5, Hc6, Hc7, Hc8,
        Hm1, Hm2, Hm3, Hm4, Hm5, Hm6, Hm7, ?app_nil_r.
      cbn [app].
      repeat (split; [reflexivity |]).
      destruct (os_CreateProcess api full_path _ flags
                && ((job =? 0) || os_AssignProcessToJobObject api)
                && negb doreturn).
      * destruct Hend as (He1 & He2 & He3).
        rewrite ?Hc5, ?He3. auto.
      * destruct Hend as (He1 & He2 & He3).
        rewrite ?Hc5, ?He3. auto.
    + rewrite (guarded_launch_throws api path argv doreturn fd_stdout
                 fd_stderr temp_dir flags job sh s1 Hp Hlong Hsuffix).
      cbn [fst snd outcome_of]. rewrite Ht, Hf, Hc1, Hc2, Hc3, Hc6, Hc7, Hc8.
      repeat split; reflexivity.
  - destruct (guarded_launch_short api path argv doreturn fd_stdout
                fd_stderr temp_dir flags job sh s1 Hp Hshort)
      as (Hfiles & more & Hmore & Hm1 & Hm2 & Hm3 & Hm4 & Hm5 & Hm6 & Hm7
          & Hm8).
    fold full_path in Hm8.
    unfold jobs_created, job_limits, command_lines, creation_flags,
      tmp_created, tmp_written, tmp_removed, jobs_joined in *.
    cbn zeta in *. rewrite Hmore, Ht, Hfiles, Hf.
    rewrite !flat_map_app, Hc1, Hc2, Hc3, Hc6, Hc7, Hc8,
      Hm1, Hm2, Hm3, Hm6, Hm7, Hm8, ?app_nil_r.
    cbn [app]. repeat split; reflexivity.
Qed.

(** C3.  A launch that gets as far as the command line, with creation
    flags [flags] and job [job]: when the rendered command line is longer
    than 8192 characters, the arguments after [argv[0]] are written to a
    temporary file named after [temp_dir]/cmd_args, and the command line
    passed to [CreateProcess] is the quoted executable followed by the
    quoted [@] reference to that file; a launch that cannot create the
    file throws and creates no process.  Whenever the call returns, the
    file has been removed.  When the child has been waited for and
    [doreturn] is off, the launch ends in [exit], the finalizer does not
    run, and the file stays on disk.  With a command line of at most 8192
    characters, and in a launch that ends before the command line is
    rendered, no temporary file is created. *)
Theorem win32execute_response_file
    (api : Api) (path : string) (argv : list string) (doreturn : bool)
    (fd_stdout fd_stderr : Z) (temp_dir : string)
    (disk : gmap string string) :
  let sh := (win32getshell fs env path).1 in
  let full_path := add_exe_suffix (if negb (is_empty sh) then sh else path) in
  let args := format_argv_as_win32_command_string argv sh false in
  let data := format_argv_as_win32_command_string (tail argv) sh true in
  let run := win32execute fs env api path argv doreturn fd_stdout fd_stderr
               temp_dir disk in
  let tr := trace run.2 in
  match (prelude fs env api path fd_stdout fd_stderr
           {| files := disk; trace := []; tmp_file_path := EmptyString |}).1
  with
  | inl o =>
      run.1 = o ∧ tmp_created tr = [] ∧ command_lines tr = []
      ∧ files run.2 = disk
  | inr (flags, job, _) =>
      if 8192 <? Z.of_nat (String.length args) then
        match os_tmp_suffix api with
        | None =>
            run.1 = Thrown "TemporaryFile::create"
            ∧ tmp_created tr = [] ∧ command_lines tr = []
            ∧ files run.2 = disk
        | Some suffix =>
            let tmp := (temp_dir +:+ "/cmd_args") +:+ suffix in
            let cmd := response_file_command full_path tmp in
            tmp_created tr = [tmp] ∧ tmp_written tr = [(tmp, data)]
            ∧ command_lines tr = [cmd]
            ∧ if os_CreateProcess api full_path cmd flags
                 && ((job =? 0) || os_AssignProcessToJobObject api)
                 && negb doreturn
              then run.1 = Exited (to_int (os_GetExitCodeProcess api))
                   ∧ files run.2 !! tmp
                     = Some (if os_write_fd api then data else EmptyString)
                   ∧ tmp_removed tr = []
              else (∃ code, run.1 = Returned code)
                   ∧ files run.2 !! tmp = None ∧ tmp_removed tr = [tmp]
        end
      else
        tmp_created tr = [] ∧ command_lines tr = [args]
        ∧ files run.2 = disk
  end.
Proof.
  intros sh full_path args data run tr.
  destruct (prelude fs env api path fd_stdout fd_stderr _).1
    as [o | [[flags job] sh0]] eqn:Hpre.
  - pose proof (prelude_frame api path fd_stdout fd_stderr
                  {| files := disk; trace := [];
                     tmp_file_path := EmptyString |})
      as (Hf & _ & (calls & Ht & Hc1 & Hc2 & _) & _).
    unfold tr, run, win32execute, win32execute_steps, mbind, Launch_bind.
    destruct (prelude fs env api path fd_stdout fd_stderr _) as [r s1].
    cbn [fst snd trace files app] in Hpre, Hf, Ht |- *. subst r.
    cbn [fst snd outcome_of]. rewrite Ht, Hf, Hc1, Hc2. auto.
  - pose proof (win32execute_launch api path argv doreturn fd_stdout
                  fd_stderr temp_dir disk flags job sh0 Hpre)
      as (_ & _ & Hrun).
    fold sh full_path args data run tr in Hrun. cbn zeta in Hrun |- *.
    destruct (8192 <? Z.of_nat (String.length args)).
    + destruct (os_tmp_suffix api) as [suffix |].
      * destruct Hrun as (H1 & _ & H3 & H4 & _ & Hend). auto.
      * destruct Hrun as (H1 & H2 & H3 & _ & H5 & _). auto.
    + destruct Hrun as (H1 & _ & H3 & H4 & _). auto.
Qed.

(** C8, amended.  For a process that is in a job: when the limit flags of
    the job neither set kill-on-close nor allow break-away (and whenever
    they set kill-on-close or do not allow break-away), the launcher
    creates no job object and assigns the child to none, and a launch that
    gets as far as [CreateProcess] creates the child with creation flags
    0; when break-away is allowed and kill-on-close is not set, the
    launcher creates a job object, and a launch that gets as far as
    [CreateProcess] creates the child with CREATE_BREAKAWAY_FROM_JOB and
    CREATE_SUSPENDED, detached from the job of the parent and suspended. *)
Theorem job_of_the_child
    (api : Api) (path : string) (argv : list string) (doreturn : bool)
    (fd_stdout fd_stderr : Z) (temp_dir : string)
    (disk : gmap string string) (limit_flags : Z) :
  os_IsProcessInJob api = Some true →
  os_QueryInformationJobObject api = Some limit_flags →
  let args := format_argv_as_win32_command_string argv
                (win32getshell fs env path).1 false in
  let tr := trace (win32execute fs env api path argv doreturn fd_stdout
                     fd_stderr temp_dir disk).2 in
  let reaches_CreateProcess :=
    (∃ steps,
       (prelude fs env api path fd_stdout fd_stderr
          {| files := disk; trace := []; tmp_file_path := EmptyString |}).1
       = inr steps)
    ∧ (8192 < Z.of_nat (String.length args) → is_Some (os_tmp_suffix api)) in
  (is_kill_active limit_flags = true ∨ allow_break_away limit_flags = false →
   jobs_created tr = [] ∧ jobs_joined tr = []
   ∧ (reaches_CreateProcess → creation_flags tr = [0]))
  ∧ (is_kill_active limit_flags = false
     ∧ allow_break_away limit_flags = true →
     jobs_created tr = [os_CreateJobObject api]
     ∧ (reaches_CreateProcess →
        creation_flags tr
        = [Z.lor CREATE_BREAKAWAY_FROM_JOB CREATE_SUSPENDED])).
Proof.
  intros Hin Hquery args tr reaches.
  assert (Hflags : reaches → ∃ flags job sh0,
            (prelude fs env api path fd_stdout fd_stderr
               {| files := disk; trace := [];
                  tmp_file_path := EmptyString |}).1
            = inr (flags, job, sh0)
            ∧ creation_flags tr = [flags]).
  { intros [[[[flags job] sh0] Hpre] Hfile].
    exists flags, job, sh0. split; [exact Hpre |].
    pose proof (win32execute_launch api path argv doreturn fd_stdout
                  fd_stderr temp_dir disk flags job sh0 Hpre)
      as (_ & _ & Hrun).
    fold args tr in Hrun. cbn zeta in Hrun.
    destruct (Z.ltb_spec 8192 (Z.of_nat (String.length args)))
      as [Hlong | Hshort].
    - destruct (Hfile Hlong) as [suffix Hsuffix]. rewrite Hsuffix in Hrun.
      apply Hrun.
    - apply Hrun. }
  split.
  - intros Hlimits.
    assert (Hcond : negb (is_kill_active limit_flags)
                    && allow_break_away limit_flags = false)
      by (destruct Hlimits as [-> | ->]; [reflexivity | apply andb_false_r]).
    split; [| split].
    + unfold tr. unfold_launch. rewrite Hin, Hquery. cbn zeta. rewrite Hcond.
      cbn -[Z.lor]. repeat branch; read_trace; reflexivity.
    + unfold tr. unfold_launch. rewrite Hin, Hquery. cbn zeta. rewrite Hcond.
      cbn -[Z.lor]. repeat branch; read_trace; reflexivity.
    + intros Hreach.
      destruct (Hflags Hreach) as (flags & job & sh0 & Hpre & ->).
      destruct (prelude_passes api path fd_stdout fd_stderr _ flags job sh0
                  Hpre) as (_ & _ & _ & _ & [(Hfree & _) | Hjob]);
        [congruence |].
      destruct Hjob as (lf & _ & Hq & [(Hk & Hb & _) | (_ & -> & _)]);
        [| reflexivity].
      assert (lf = limit_flags) as -> by congruence.
      rewrite Hk, Hb in Hcond. discriminate Hcond.
  - intros [Hkill Hbreak]. split.
    + unfold tr. unfold_launch. rewrite Hin, Hquery. cbn zeta.
      rewrite Hkill, Hbreak. cbn -[Z.lor].
      repeat branch; read_trace; reflexivity.
    + intros Hreach.
      destruct (Hflags Hreach) as (flags & job & sh0 & Hpre & ->).
      destruct (prelude_passes api path fd_stdout fd_stderr _ flags job sh0
                  Hpre) as (_ & _ & _ & _ & [(Hfree & _) | Hjob]);
        [congruence |].
      destruct Hjob as (lf & _ & Hq & [(_ & _ & -> & _) | (Hl & _)]);
        [reflexivity |].
      assert (lf = limit_flags) as -> by congruence.
      destruct Hl as [Hl | Hl]; congruence.
Qed.

End Facts.

(** The script /work/run starts with the shebang line, the detection flag
    is set and /bin holds sh.exe: no shell is found all the same. *)
Lemma win32getshell_without_sh_extension_witness :
  (win32getshell (U := Sample.windows) Sample.fs2 Sample.env2 "/work/run").1
  = EmptyString.
Proof.
  apply (win32getshell_without_sh_extension (U := Sample.windows)).
  reflexivity.
Defined.

Example win32getshell_sh_extension :
  (win32getshell (U := Sample.windows) Sample.fs2 Sample.env2 "/work/run.SH").1
  = "/bin/sh.exe".
Proof. reflexivity. Qed.

(** [execute_noreturn] with a command line of more than 9000 characters:
    the response file is created and referred to, the launch ends in
    [exit], and the file is still on disk. *)
Lemma win32execute_response_file_witness :
  let run := execute_noreturn (U := Sample.windows) Sample.fs2 Sample.env2
               (Sample.api_ok 0x800) Sample.long_argv "/tmp" ∅ in
  tmp_created (trace run.2) = ["/tmp/cmd_args.a1b2c3.tmp"]
  ∧ tmp_written (trace run.2)
    = [("/tmp/cmd_args.a1b2c3.tmp",
        format_argv_as_win32_command_string (Util := Sample.windows)
          (tail Sample.long_argv) EmptyString true)]
  ∧ command_lines (trace run.2)
    = [response_file_command "/bin/cc.exe" "/tmp/cmd_args.a1b2c3.tmp"]
  ∧ run.1 = Exited 0
  ∧ files run.2 !! "/tmp/cmd_args.a1b2c3.tmp"
    = Some (format_argv_as_win32_command_string (Util := Sample.windows)
              (tail Sample.long_argv) EmptyString true)
  ∧ tmp_removed (trace run.2) = [].
Proof.
  intros run.
  pose proof (win32execute_response_file (U := Sample.windows) Sample.fs2
                Sample.env2 (Sample.api_ok 0x800) "/bin/cc" Sample.long_argv
                false (-1) (-1) "/tmp" ∅) as H.
  vm_compute in H. subst run. vm_compute. exact H.
Defined.

Example long_launch :
  let run := win32execute (U := Sample.windows) Sample.fs2 Sample.env2
               (Sample.api_ok 0x800) "/bin/cc" Sample.long_argv true 3 4
               "/tmp" ∅ in
  run.1 = Returned 0
  ∧ command_lines (trace run.2)
    = [response_file_command "/bin/cc.exe" "/tmp/cmd_args.a1b2c3.tmp"]
  ∧ tmp_created (trace run.2) = ["/tmp/cmd_args.a1b2c3.tmp"]
  ∧ files run.2 = ∅.
Proof. vm_compute. auto. Qed.

(** [execute_noreturn] ends in [exit], which runs no finalizer: the
    response file of a long command line stays on disk. *)
Example execute_noreturn_keeps_response_file :
  let run := execute_noreturn (U := Sample.windows) Sample.fs2 Sample.env2
               (Sample.api_ok 0x800) Sample.long_argv "/tmp" ∅ in
  run.1 = Exited 0
  ∧ is_Some (files run.2 !! "/tmp/cmd_args.a1b2c3.tmp")
  ∧ tmp_removed (trace run.2) = [].
Proof. vm_compute. eauto. Qed.

(** In a job that allows break-away and does not kill on close. *)
Lemma job_of_the_child_witness :
  let run := win32execute (U := Sample.windows) Sample.fs2 Sample.env2
               (Sample.api_ok JOB_OBJECT_LIMIT_BREAKAWAY_OK) "/bin/cc"
               ["/bin/cc"; "-c"; "x.c"] true 3 4 "/tmp" ∅ in
  jobs_created (trace run.2) = [77]
  ∧ creation_flags (trace run.2) = [0x1000004].
Proof.
  intros run.
  destruct (proj2 (job_of_the_child (U := Sample.windows) Sample.fs2
                     Sample.env2 (Sample.api_ok JOB_OBJECT_LIMIT_BREAKAWAY_OK)
                     "/bin/cc" ["/bin/cc"; "-c"; "x.c"] true 3 4 "/tmp" ∅
                     JOB_OBJECT_LIMIT_BREAKAWAY_OK eq_refl eq_refl)
              (conj eq_refl eq_refl)) as [Hcreated Hflags].
  split; [exact Hcreated |]. apply Hflags.
  split; [eexists; reflexivity | intros _; eexists; reflexivity].
Defined.

(** C8 as stated fails: in a job whose limit flags are 0, neither
    kill-on-close nor break-away, the child is created, with creation
    flags 0, and it joins no job object created by the launcher. *)
Lemma no_fresh_job_without_break_away :
  let run := execute (U := Sample.windows) Sample.fs2 Sample.env2
               (Sample.api_ok 0) "/tmp" ["/bin/cc"; "-c"; "x.c"] 3 4 ∅ in
  run.1 = Returned 0
  ∧ creation_flags (trace run.2) = [0]
  ∧ ¬ joins_fresh_job (trace run.2).
Proof.
  split; [reflexivity | split; [reflexivity |]].
  intros (job & Hcreated & _). exact Hcreated.
Qed.

End Win32Facts.


(** * Further properties of the code *)

(** ** The POSIX launcher *)

Module PosixMore.
Import WaitStatus Posix.

Lemma WEXITSTATUS_byte (status : Z) :
  WEXITSTATUS status = Z.shiftr status 8 mod 256.
Proof.
  unfold WEXITSTATUS. rewrite Z.shiftr_land.
  change (Z.shiftr 0xff00 8) with (Z.ones 8).
  rewrite Z.land_ones by lia. reflexivity.
Qed.

Lemma exit_outcome_range (status : Z) :
  exit_outcome status = -1 ∨ 0 ≤ exit_outcome status ≤ 255.
Proof.
  unfold exit_outcome.
  destruct ((WEXITSTATUS status =? 0) && WIFSIGNALED status); [left; reflexivity |].
  right. rewrite WEXITSTATUS_byte.
  pose proof (Z.mod_pos_bound (Z.shiftr status 8) 256). lia.
Qed.

(** [execute] hands back a code only for a child it has reaped; the code
    is -1 or a byte, it is 0 only for a status word with a zero exit field
    and no terminating signal, and -1 only for one with a terminating
    signal. *)
Theorem execute_returned_code (ctx : Context) (os : Os) (code : Z) :
  (execute ctx os).2 = Returned code →
  ∃ status,
    wait_loop (fork_result os) (waitpid_replies os) = Reaped status
    ∧ fork_result os ≠ -1 ∧ fork_result os ≠ 0
    ∧ (code = -1 ∨ 0 ≤ code ≤ 255)
    ∧ (code = 0 → WEXITSTATUS status = 0 ∧ WIFSIGNALED status = false)
    ∧ (code = -1 → WEXITSTATUS status = 0 ∧ WIFSIGNALED status = true).
Proof.
  unfold execute. cbn [compiler_pid].
  destruct (Z.eqb_spec (fork_result os) (-1)); [discriminate |].
  destruct (Z.eqb_spec (fork_result os) 0); [discriminate |].
  destruct (wait_loop (fork_result os) (waitpid_replies os)) as [status | |];
    cbn [snd]; try discriminate.
  intros [= <-]. exists status. repeat split; try assumption.
  - apply exit_outcome_range.
  - unfold exit_outcome in *.
    destruct (Z.eqb_spec (WEXITSTATUS status) 0); cbn [andb] in *; [| lia].
    assumption.
  - unfold exit_outcome in *.
    destruct (Z.eqb_spec (WEXITSTATUS status) 0); cbn [andb] in *; [| lia].
    destruct (WIFSIGNALED status); [discriminate | reflexivity].
  - unfold exit_outcome in *.
    destruct (Z.eqb_spec (WEXITSTATUS status) 0); cbn [andb] in *;
      [assumption |].
    pose proof (exit_outcome_range status) as Hr. rewrite WEXITSTATUS_byte in *.
    pose proof (Z.mod_pos_bound (Z.shiftr status 8) 256). lia.
  - unfold exit_outcome in *.
    destruct (Z.eqb_spec (WEXITSTATUS status) 0); cbn [andb] in *.
    + destruct (WIFSIGNALED status); [reflexivity | lia].
    + rewrite WEXITSTATUS_byte in *.
      pose proof (Z.mod_pos_bound (Z.shiftr status 8) 256). lia.
Qed.

Lemma execute_returned_code_witness :
  ∃ status,
    wait_loop 4242 (waitpid_replies os_killed) = Reaped status
    ∧ 4242 ≠ -1 ∧ 4242 ≠ 0
    ∧ (-1 = -1 ∨ 0 ≤ -1 ≤ 255)
    ∧ (-1 = 0 → WEXITSTATUS status = 0 ∧ WIFSIGNALED status = false)
    ∧ (-1 = -1 → WEXITSTATUS status = 0 ∧ WIFSIGNALED status = true).
Proof.
  apply (execute_returned_code {| compiler_pid := 0 |} os_killed (-1)).
  reflexivity.
Defined.

(** The pid recorded in the context: whatever it was before, after the
    call it is 0 when [execute] returns a code, and in every other case
    what [fork] returned, so the child's pid stays recorded when the wait
    fails and -1 when the fork failed. *)
Theorem execute_recorded_pid (ctx ctx' : Context) (os : Os) :
  execute ctx os = execute ctx' os
  ∧ compiler_pid (execute ctx os).1
    = match (execute ctx os).2 with
      | Returned _ => 0
      | _ => fork_result os
      end.
Proof.
  split; [reflexivity |]. unfold execute. cbn [compiler_pid].
  destruct (Z.eqb_spec (fork_result os) (-1)); [reflexivity |].
  destruct (Z.eqb_spec (fork_result os) 0); [reflexivity |].
  destruct (wait_loop (fork_result os) (waitpid_replies os)); reflexivity.
Qed.

(** When [execv] fails in the child, the child exits with what [execv]
    returned, and the parent that reaps it reports the low eight bits of
    that value, 255 for the -1 of a failed [execv]: the failure comes back
    as an ordinary exit code. *)
Theorem exec_failure_seen_by_parent
    (ctx : Context) (child parent : Os) (r : Z) (c : cause) :
  fork_result child = 0 →
  execv_result child = Some r →
  reaped_cause (execute ctx child).2 = Some c →
  fork_result parent ≠ -1 → fork_result parent ≠ 0 →
  wait_loop (fork_result parent) (waitpid_replies parent)
    = Reaped (status_of c) →
  (execute ctx parent).2 = Returned (r mod 256)
  ∧ (r = -1 → (execute ctx parent).2 = Returned 255).
Proof.
  intros Hchild Hexec Hcause H1 H0 Hw.
  unfold execute in Hcause. cbn [compiler_pid] in Hcause.
  rewrite Hchild, Hexec in Hcause. cbn in Hcause. injection Hcause as <-.
  rewrite (PosixFacts.execute_reaped ctx parent _ H1 H0 Hw). cbn [snd].
  assert (Hb : Z.land r 0xff = r mod 256)
    by (change 0xff with (Z.ones 8); rewrite Z.land_ones by lia; reflexivity).
  assert (Hrange : 0 ≤ r mod 256 ≤ 255)
    by (pose proof (Z.mod_pos_bound r 256); lia).
  destruct (PosixFacts.exited_status (Z.land r 0xff)) as [He Hs];
    [rewrite Hb; exact Hrange |].
  rewrite PosixFacts.exit_outcome_cases, Hs, He, Hb.
  split; [reflexivity | intros ->; reflexivity].
Qed.

Lemma exec_failure_seen_by_parent_witness :
  (execute {| compiler_pid := 0 |}
     {| fork_result := 4242; fork_errno := 0; execv_result := None;
        waitpid_replies :=
          [{| wr_result := 4242; wr_status := 0xff00; wr_errno := 0 |}] |}).2
  = Returned 255.
Proof.
  refine (proj2 (exec_failure_seen_by_parent {| compiler_pid := 0 |}
            {| fork_result := 0; fork_errno := 0; execv_result := Some (-1);
               waitpid_replies := [] |}
            _ (-1) (Exited 255) _ _ _ _ _ _) eq_refl);
    (reflexivity || discriminate).
Defined.

End PosixMore.

(** ** The resolver *)

Module ResolverMore.
Import Resolver ResolverFacts.

Lemma snd_bind {A B} (m : Eff A) (f : A → Eff B) :
  (m ≫= f).2 = (m.2 ++ (f m.1).2)%list.
Proof.
  unfold mbind, Eff_bind. destruct m as [a t1]. cbn [fst snd].
  destruct (f a) as [b t2]. reflexivity.
Qed.

Section More.
Context `{U : Util} (plat : Platform) (fs : FileSystem).

Lemma valid_exists (re c : string) :
  valid plat fs re c = true → exists_executable plat fs c = true.
Proof. unfold valid. intros H. apply andb_true_iff in H as [H _]. exact H. Qed.

Lemma scan_candidates_trace (re : string) (cs : list string) :
  (scan_candidates plat fs re cs).2
  = flat_map (probe plat fs) (scanned plat fs re cs).
Proof.
  induction cs as [| c cs IH]; [reflexivity |].
  cbn [scan_candidates scanned flat_map]. rewrite snd_bind.
  unfold candidate_exists at 1 2. cbn [fst snd].
  unfold probe at 1, valid, exists_executable.
  destruct (match plat with
            | POSIX => access_x_ok fs c
            | WIN32 => is_regular_file fs c
            end); cbn [andb app]; [| rewrite IH; reflexivity].
  rewrite snd_bind. unfold fs_canonical at 1 2. cbn [fst snd app].
  destruct (canonical fs c) as [rc |]; [| rewrite IH; reflexivity].
  unfold acceptable.
  destruct (negb (String.eqb rc re) && negb (is_ccache_executable rc));
    [reflexivity | rewrite IH; reflexivity].
Qed.

Lemma scanned_app (re : string) (l1 l2 : list string) :
  scanned plat fs re (l1 ++ l2)
  = match List.find (valid plat fs re) l1 with
    | Some _ => scanned plat fs re l1
    | None => (scanned plat fs re l1 ++ scanned plat fs re l2)%list
    end.
Proof.
  induction l1 as [| c l1 IH]; [reflexivity |].
  cbn [app scanned List.find].
  destruct (valid plat fs re c); [reflexivity |].
  rewrite IH. destruct (List.find (valid plat fs re) l1); reflexivity.
Qed.

Lemma scan_dirs_trace (re name : string) (dirs : list string) :
  (scan_dirs plat fs re name dirs).2
  = flat_map (probe plat fs)
      (scanned plat fs re (flat_map (λ dir, candidates plat dir name) dirs)).
Proof.
  induction dirs as [| d dirs IH]; [reflexivity |].
  cbn [scan_dirs flat_map]. rewrite snd_bind, scanned_app.
  rewrite scan_candidates_trace, <- scan_candidates_find.
  destruct ((scan_candidates plat fs re (candidates plat d name)).1).
  - cbn [mret Eff_ret snd]. apply app_nil_r.
  - rewrite IH, flat_map_app. reflexivity.
Qed.

Lemma scanned_found (re : string) (before after : list string) (c : string) :
  valid plat fs re c = true →
  Forall (λ x, valid plat fs re x = false) before →
  scanned plat fs re (before ++ c :: after) = (before ++ [c])%list.
Proof.
  intros Hc Hb. induction Hb as [| x before Hx _ IH]; cbn [app scanned].
  - rewrite Hc. reflexivity.
  - rewrite Hx, IH. reflexivity.
Qed.

Lemma scanned_all (re : string) (cs : list string) :
  Forall (λ x, valid plat fs re x = false) cs → scanned plat fs re cs = cs.
Proof.
  intros Hall. induction Hall as [| x cs Hx _ IH]; cbn [scanned];
    [reflexivity |].
  rewrite Hx, IH. reflexivity.
Qed.

(** The queries of one resolution, for a path list that is not empty: the
    exclude path, if any, is canonicalized first; then come the probes of
    the candidates scanned. *)
Lemma find_executable_in_path_trace
    (name path_list : string) (exclude_path : option string) :
  is_empty path_list = false →
  (find_executable_in_path plat fs name path_list exclude_path).2
  = (match exclude_path with Some e => [FsCanonical e] | None => [] end
     ++ flat_map (probe plat fs)
          (scanned plat fs (canonical_exclude fs exclude_path)
             (all_candidates plat name path_list)))%list.
Proof.
  intros Hne. unfold find_executable_in_path, find_candidate, all_candidates,
    directories.
  rewrite Hne, !snd_bind, real_exclude_value, scan_dirs_trace.
  cbn [mret Eff_ret snd]. rewrite app_nil_r. f_equal.
  destruct exclude_path as [e |]; [| reflexivity].
  cbn [real_exclude]. rewrite snd_bind. reflexivity.
Qed.

(** Scanning stops at the winner.  When a candidate is returned, the
    queries made are the canonicalization of the exclude path, then for
    each candidate before the winner its existence test, followed by its
    canonicalization if it exists, and last the two queries for the winner:
    no candidate after it is looked at. *)
Theorem scanning_stops_at_the_winner
    (name path_list : string) (exclude_path : option string)
    (before after : list string) (c : string) :
  let re := canonical_exclude fs exclude_path in
  all_candidates plat name path_list = (before ++ c :: after)%list →
  valid plat fs re c = true →
  Forall (λ x, valid plat fs re x = false) before →
  find_executable_in_path plat fs name path_list exclude_path
  = (c,
     (match exclude_path with Some e => [FsCanonical e] | None => [] end
      ++ flat_map (probe plat fs) before
      ++ [FsExists c; FsCanonical c])%list).
Proof.
  intros re Hcands Hc Hbefore.
  assert (Hne : is_empty path_list = false).
  { unfold all_candidates, directories in Hcands.
    destruct (is_empty path_list); [| reflexivity].
    destruct before; discriminate. }
  apply injective_projections.
  - unfold find_executable_in_path. rewrite fst_bind, find_candidate_find.
    fold re. rewrite Hcands.
    assert (Hfind : List.find (valid plat fs re) (before ++ c :: after)
                    = Some c) by (apply find_first; eauto).
    rewrite Hfind. reflexivity.
  - rewrite find_executable_in_path_trace by exact Hne. fold re.
    rewrite Hcands, scanned_found by assumption.
    cbn [snd]. rewrite flat_map_app. cbn [flat_map]. rewrite app_nil_r.
    unfold probe at 2. rewrite (valid_exists _ _ Hc). reflexivity.
Qed.

(** When no candidate passes, every candidate has been probed, once and
    in order, and a candidate that does not exist has not been
    canonicalized. *)
Theorem unsuccessful_scan_probes_all
    (name path_list : string) (exclude_path : option string) :
  let re := canonical_exclude fs exclude_path in
  is_empty path_list = false →
  Forall (λ x, valid plat fs re x = false)
    (all_candidates plat name path_list) →
  find_executable_in_path plat fs name path_list exclude_path
  = (EmptyString,
     (match exclude_path with Some e => [FsCanonical e] | None => [] end
      ++ flat_map (probe plat fs) (all_candidates plat name path_list))%list).
Proof.
  intros re Hne Hall. apply injective_projections.
  - unfold find_executable_in_path. rewrite fst_bind, find_candidate_find.
    fold re. apply find_nothing in Hall. rewrite Hall. reflexivity.
  - rewrite find_executable_in_path_trace by exact Hne. fold re.
    rewrite scanned_all by exact Hall. reflexivity.
Qed.

(** The exclude path counts only through its canonical form: two exclude
    paths with the same canonical form, or one that cannot be
    canonicalized and none at all, lead to the same result. *)
Theorem exclude_only_through_canonical_form
    (name path_list : string) (e1 e2 : option string) :
  canonical_exclude fs e1 = canonical_exclude fs e2 →
  (find_executable_in_path plat fs name path_list e1).1
  = (find_executable_in_path plat fs name path_list e2).1.
Proof.
  intros Heq. unfold find_executable_in_path.
  rewrite !fst_bind, !find_candidate_find, Heq. reflexivity.
Qed.

(** The path list searched: the configured one when it is not empty, else
    the value of PATH.  With a configured list the environment plays no
    part.  What [find_executable] returns for a name that is not absolute
    is then what [find_executable_in_path] returns for that list, with the
    same queries. *)
Theorem find_executable_searches
    (config_path : string) (env : gmap string string)
    (name exclude_path path_list : string) :
  is_absolute name = false →
  (is_empty config_path = false ∧ path_list = config_path)
  ∨ (is_empty config_path = true ∧ env !! "PATH" = Some path_list) →
  is_empty path_list = false →
  find_executable plat fs config_path env name exclude_path
  = (Val (find_executable_in_path plat fs name path_list
            (Some exclude_path)).1,
     (find_executable_in_path plat fs name path_list (Some exclude_path)).2).
Proof.
  intros Habs Hlist Hne. unfold find_executable. rewrite Habs.
  assert (Hsel : (if is_empty config_path then env !! "PATH"
                  else Some config_path) = Some path_list).
  { destruct Hlist as [[-> ->] | [-> ->]]; reflexivity. }
  rewrite Hsel, Hne.
  apply injective_projections.
  - rewrite fst_bind. reflexivity.
  - rewrite snd_bind. cbn [mret Eff_ret snd]. apply app_nil_r.
Qed.


(** Searching a path list whose directories are those of a first list
    followed by those of a second: the result is that of the first list
    when it has one, and that of the second otherwise. *)
Theorem search_in_sequence
    (name pl pl1 pl2 : string) (exclude_path : option string) :
  directories pl = (directories pl1 ++ directories pl2)%list →
  (find_candidate plat fs name pl exclude_path).1
  = match (find_candidate plat fs name pl1 exclude_path).1 with
    | Some c => Some c
    | None => (find_candidate plat fs name pl2 exclude_path).1
    end.
Proof.
  intros Hdirs. rewrite !find_candidate_find. unfold all_candidates.
  rewrite Hdirs, flat_map_app. apply find_append.
Qed.

End More.

(** In one directory of a Windows path list the plain name is preferred to
    the name with .exe, and the .exe of an earlier directory to anything in
    a later one. *)
Theorem windows_candidate_order
    `{U : Util} (fs : FileSystem) (name path_list dir : string)
    (rest : list string) (exclude_path : option string) :
  let re := canonical_exclude fs exclude_path in
  let found := (find_candidate WIN32 fs name path_list exclude_path).1 in
  directories path_list = dir :: rest →
  (valid WIN32 fs re (path_append dir name) = true →
   found = Some (path_append dir name))
  ∧ (valid WIN32 fs re (path_append dir name) = false →
     valid WIN32 fs re (path_append dir (name +:+ ".exe")) = true →
     found = Some (path_append dir (name +:+ ".exe"))).
Proof.
  intros re found Hdirs. unfold found. rewrite find_candidate_find.
  unfold all_candidates. rewrite Hdirs. cbn [flat_map candidates app List.find].
  fold re. split.
  - intros ->. reflexivity.
  - intros -> ->. reflexivity.
Qed.

Lemma scanning_stops_at_the_winner_witness :
  find_executable_in_path (U := Sample.posix) POSIX Sample.fs3 "gcc"
    "/nowhere:/usr/lib/wrap:/usr/bin:/opt/bin" (Some "/usr/lib/wrap/gcc")
  = ("/usr/bin/gcc",
     [FsCanonical "/usr/lib/wrap/gcc"; FsExists "/nowhere/gcc";
      FsExists "/usr/lib/wrap/gcc"; FsCanonical "/usr/lib/wrap/gcc";
      FsExists "/usr/bin/gcc"; FsCanonical "/usr/bin/gcc"]).
Proof.
  apply (scanning_stops_at_the_winner (U := Sample.posix) POSIX Sample.fs3
           "gcc" "/nowhere:/usr/lib/wrap:/usr/bin:/opt/bin"
           (Some "/usr/lib/wrap/gcc")
           ["/nowhere/gcc"; "/usr/lib/wrap/gcc"] ["/opt/bin/gcc"]
           "/usr/bin/gcc");
    [reflexivity | reflexivity | repeat constructor].
Defined.

Lemma unsuccessful_scan_probes_all_witness :
  find_executable_in_path (U := Sample.posix) POSIX Sample.fs3 "gcc"
    "/nowhere:/usr/lib/wrap" (Some "/usr/local/bin/wrapper")
  = (EmptyString,
     [FsCanonical "/usr/local/bin/wrapper"; FsExists "/nowhere/gcc";
      FsExists "/usr/lib/wrap/gcc"; FsCanonical "/usr/lib/wrap/gcc"]).
Proof.
  apply (unsuccessful_scan_probes_all (U := Sample.posix) POSIX Sample.fs3
           "gcc" "/nowhere:/usr/lib/wrap" (Some "/usr/local/bin/wrapper"));
    [reflexivity | repeat constructor].
Defined.

Lemma exclude_only_through_canonical_form_witness :
  (find_executable_in_path (U := Sample.posix) POSIX Sample.fs3 "gcc"
     "/usr/lib/wrap:/usr/bin" (Some "/usr/lib/wrap/gcc")).1
  = (find_executable_in_path (U := Sample.posix) POSIX Sample.fs3 "gcc"
       "/usr/lib/wrap:/usr/bin" (Some "/usr/local/bin/wrapper")).1.
Proof.
  apply (exclude_only_through_canonical_form (U := Sample.posix)).
  reflexivity.
Defined.

Lemma find_executable_searches_witness :
  find_executable (U := Sample.posix) POSIX Sample.fs3 "/usr/bin"
    (<["PATH" := "/opt/bin"]> ∅) "gcc" "/usr/local/bin/wrapper"
  = (Val (find_executable_in_path (U := Sample.posix) POSIX Sample.fs3 "gcc"
            "/usr/bin" (Some "/usr/local/bin/wrapper")).1,
     (find_executable_in_path (U := Sample.posix) POSIX Sample.fs3 "gcc"
        "/usr/bin" (Some "/usr/local/bin/wrapper")).2).
Proof.
  apply (find_executable_searches (U := Sample.posix));
    [reflexivity | left; split; reflexivity | reflexivity].
Defined.


Lemma search_in_sequence_witness :
  (find_candidate (U := Sample.posix) POSIX Sample.fs3 "gcc"
     "/usr/lib/wrap:/usr/bin" (Some "/usr/local/bin/wrapper")).1
  = match (find_candidate (U := Sample.posix) POSIX Sample.fs3 "gcc"
             "/usr/lib/wrap" (Some "/usr/local/bin/wrapper")).1 with
    | Some c => Some c
    | None => (find_candidate (U := Sample.posix) POSIX Sample.fs3 "gcc"
                 "/usr/bin" (Some "/usr/local/bin/wrapper")).1
    end.
Proof.
  apply (search_in_sequence (U := Sample.posix)). reflexivity.
Defined.

Lemma windows_candidate_order_witness :
  (find_candidate (U := Sample.windows) WIN32 Sample.fs2 "cc" "/bin;/nowhere"
     None).1
  = Some "/bin/cc.exe".
Proof.
  apply (proj2 (windows_candidate_order (U := Sample.windows) Sample.fs2 "cc"
                  "/bin;/nowhere" "/bin" ["/nowhere"] None eq_refl));
    reflexivity.
Defined.

End ResolverMore.

(** ** The Windows launcher *)

Module Win32More.
Import Win32 Win32Facts.

Section More.
Context `{U : Util} (fs : FileSystem) (env : gmap string string).

(** The second attempt of [win32getshell] leaves the shell as the first
    attempt found it. *)
Lemma shebang_attempt_keeps (path sh : string) :
  (if is_empty sh && bool_decide (is_Some (env !! "CCACHE_DETECT_SHEBANG"))
   then
     _ ← emit (FsOpen path);
     match read_stream fs path with
     | Some stream =>
         let buf := fgets (sizeof_buf - 1) stream in
         if String.eqb (c_str buf) "#!/bin/sh"
         then find_sh fs (env !! "PATH") sh
         else mret sh
     | None => mret sh
     end
   else mret sh : Eff string).1 = sh.
Proof.
  destruct (is_empty sh
            && bool_decide (is_Some (env !! "CCACHE_DETECT_SHEBANG")));
    [| reflexivity].
  rewrite ResolverFacts.fst_bind.
  destruct (read_stream fs path) as [stream |]; [| reflexivity].
  cbn zeta. rewrite shebang_never_read. reflexivity.
Qed.

(** The shell found depends on the extension of the path and on PATH
    alone: for the extension .sh and a PATH that is set it is what the
    resolver finds for sh.exe, with no exclude path, and it is empty in
    every other case.  Neither CCACHE_DETECT_SHEBANG nor the contents of
    the file change it. *)
Theorem win32getshell_value (path : string) :
  (win32getshell fs env path).1
  = if String.eqb (to_lowercase (path_extension path)) ".sh"
    then match env !! "PATH" with
         | Some pl =>
             (Resolver.find_executable_in_path WIN32 fs "sh.exe" pl None).1
         | None => EmptyString
         end
    else EmptyString.
Proof.
  unfold win32getshell. rewrite ResolverFacts.fst_bind.
  rewrite shebang_attempt_keeps. unfold find_sh.
  destruct (String.eqb (to_lowercase (path_extension path)) ".sh");
    [| reflexivity].
  destruct (env !! "PATH"); reflexivity.
Qed.

Ltac unfold_launch_in H :=
  unfold win32execute, outcome_of, win32execute_steps, guarded_launch,
    prelude, job_policy, make_job,
    startup_handles, command_line, spawn_and_wait, finally_remove,
    tmp_file_remover, TemporaryFile_create, create_file, write_fd,
    set_tmp_file_path, log, ev, lift, stop, mbind, Launch_bind, mret,
    Launch_ret, fmap, option_fmap, option_map in H.

Ltac tidy_in H :=
  cbn [fst snd files trace tmp_file_path negb andb orb] in H;
  rewrite ?tmp_name_not_empty' in H;
  change (is_empty EmptyString) with true in H;
  cbn [fst snd files trace tmp_file_path negb andb orb] in H.

Ltac branch_in H :=
  match type of H with
  | context [match ?x with _ => _ end] =>
      lazymatch x with
      | context [match _ with _ => _ end] => fail
      | os_write_fd _ => fail
      | _ => destruct x eqn:?
      end
  end; tidy_in H.

(** Case analysis on one run, along the tests the launcher makes. *)
Ltac run_cases path :=
  match goal with
  | |- context [win32execute ?fs ?env ?api path ?argv ?d ?o ?e ?t ?disk] =>
      let H := fresh "Hrun" in
      let r := fresh "run" in
      destruct (negb (is_empty (win32getshell fs env path).1)) eqn:?;
      remember (win32execute fs env api path argv d o e t disk) as r eqn:H;
      symmetry in H; unfold_launch_in H; tidy_in H;
      repeat (branch_in H;
              repeat match goal with
                     | E : _ = _ |- _ =>
                         tryif constr_eq E H then fail else rewrite E in H
                     end;
              tidy_in H);
      subst r
  end.

(** The same, with the traces brought to a form the readers compute on. *)
Ltac run_flat path :=
  match goal with
  | |- context [win32execute ?fs ?env ?api path ?argv ?d ?o ?e ?t ?disk] =>
      let H := fresh "Hrun" in
      let r := fresh "run" in
      destruct (negb (is_empty (win32getshell fs env path).1)) eqn:?;
      remember (win32execute fs env api path argv d o e t disk) as r eqn:H;
      symmetry in H; unfold_launch_in H; tidy_in H;
      repeat (branch_in H;
              repeat match goal with
                     | E : _ = _ |- _ =>
                         tryif constr_eq E H then fail else rewrite E in H
                     end;
              tidy_in H);
      rewrite <- ?app_assoc in H; cbn [app] in H;
      subst r
  end.

Ltac read_one :=
  match goal with
  | |- context [flat_map ?pick ?T] =>
      lazymatch T with
      | context [app] => idtac
      | context [map Did] => idtac
      end;
      let E := fresh "E" in
      eassert (E : flat_map pick T = _);
      [ rewrite ?flat_map_app; rewrite ?pick_Did by reflexivity;
        cbn [flat_map app]; reflexivity
      | rewrite E; clear E ]
  end.

Ltac read_trace :=
  unfold jobs_created, jobs_joined, creation_flags, command_lines,
    tmp_created, tmp_written, tmp_removed, applications, job_limits,
    fds_closed, waits, resumes, terminations;
  cbn [fst snd files trace tmp_file_path flat_map app];
  rewrite ?flat_map_app; rewrite ?pick_Did by reflexivity;
  cbn [flat_map app].

(** How a launch ends.  When the child has been waited for, the launch
    ends with the child's exit code: returned, or passed to [exit] when
    [doreturn] is off.  In every other case the call returns 0 or -1 or
    throws, also when [doreturn] is off; it returns 0 only when a query
    about the current job failed, and then no process was created. *)
Theorem win32execute_outcome
    (api : Api) (path : string) (argv : list string) (doreturn : bool)
    (fd_stdout fd_stderr : Z) (temp_dir : string)
    (disk : gmap string string) :
  let run := win32execute fs env api path argv doreturn fd_stdout fd_stderr
               temp_dir disk in
  let tr := trace run.2 in
  let code := to_int (os_GetExitCodeProcess api) in
  (waits tr = [tt]
   ∧ run.1 = (if negb doreturn then Exited code else Returned code))
  ∨ (waits tr = [] ∧ tmp_created tr = []
     ∧ ∃ what, run.1 = Thrown what)
  ∨ (waits tr = [] ∧ run.1 = Returned (-1))
  ∨ (waits tr = [] ∧ run.1 = Returned 0 ∧ applications tr = []
     ∧ (os_IsProcessInJob api = None
        ∨ os_QueryInformationJobObject api = None)).
Proof.
  intros run tr code. unfold tr, code. clear tr code. subst run.
  run_flat path.
  all: read_trace.
  all: first
    [ left; split; reflexivity
    | right; right; left; split; reflexivity
    | right; left; split;
      [reflexivity | split; [reflexivity | eexists; reflexivity]]
    | right; right; right; split;
      [reflexivity | split; [reflexivity | split; [reflexivity | auto]]] ].
Qed.

(** The descriptors handed over are closed exactly when the launcher gets
    as far as [CreateProcess], whether or not the process is then created;
    a launch that fails earlier closes none, and with [fd_stdout] equal to
    -1 none is ever closed. *)
Theorem descriptors_closed
    (api : Api) (path : string) (argv : list string) (doreturn : bool)
    (fd_stdout fd_stderr : Z) (temp_dir : string)
    (disk : gmap string string) :
  let tr := trace (win32execute fs env api path argv doreturn fd_stdout
                     fd_stderr temp_dir disk).2 in
  (applications tr = [] ∧ fds_closed tr = [])
  ∨ (length (applications tr) = 1%nat
     ∧ fds_closed tr
       = if negb (fd_stdout =? -1) then [fd_stdout; fd_stderr] else []).
Proof.
  intros tr. subst tr. run_flat path.
  all: read_trace.
  all: first [left; split; reflexivity | right; split; reflexivity].
Qed.

(** For a process that is in no job the launcher creates a job object
    and, unless that failed, sets on it the limits kill-on-close and silent
    break-away.  A launch that gets as far as [CreateProcess] creates the
    child suspended and with no other creation flag and, once the process
    is created, assigns it to that job and to no other. *)
Theorem job_for_a_free_process
    (api : Api) (path : string) (argv : list string) (doreturn : bool)
    (fd_stdout fd_stderr : Z) (temp_dir : string)
    (disk : gmap string string) :
  os_IsProcessInJob api = Some false →
  let sh := (win32getshell fs env path).1 in
  let full_path := add_exe_suffix (if negb (is_empty sh) then sh else path) in
  let args := format_argv_as_win32_command_string argv sh false in
  let tr := trace (win32execute fs env api path argv doreturn fd_stdout
                     fd_stderr temp_dir disk).2 in
  let reaches_CreateProcess :=
    (∃ steps,
       (prelude fs env api path fd_stdout fd_stderr
          {| files := disk; trace := []; tmp_file_path := EmptyString |}).1
       = inr steps)
    ∧ (8192 < Z.of_nat (String.length args) → is_Some (os_tmp_suffix api)) in
  jobs_created tr = [os_CreateJobObject api]
  ∧ job_limits tr
    = (if os_CreateJobObject api =? 0 then []
       else [Z.lor JOB_OBJECT_LIMIT_KILL_ON_JOB_CLOSE
               JOB_OBJECT_LIMIT_SILENT_BREAKAWAY_OK])
  ∧ (reaches_CreateProcess →
     creation_flags tr = [CREATE_SUSPENDED]
     ∧ ((∀ cmd, os_CreateProcess api full_path cmd CREATE_SUSPENDED = true) →
        jobs_joined tr = [os_CreateJobObject api])).
Proof.
  intros Hfree sh full_path args tr reaches.
  apply and_assoc. split.
  - subst tr. run_flat path.
    all: try congruence.
    all: read_trace; split; reflexivity.
  - intros [[[[flags job] sh0] Hpre] Hfile].
    pose proof (win32execute_launch fs env api path argv doreturn fd_stdout
                  fd_stderr temp_dir disk flags job sh0 Hpre)
      as (_ & _ & Hrun).
    destruct (prelude_passes fs env api path fd_stdout fd_stderr _ flags job
                sh0 Hpre)
      as (_ & _ & _ & _ & [(_ & -> & -> & Hjob) | (lf & Hin & _)]);
      [| congruence].
    fold sh full_path args tr in Hrun. cbn zeta in Hrun.
    rewrite Hjob in Hrun. cbn [negb] in Hrun.
    destruct (Z.ltb_spec 8192 (Z.of_nat (String.length args)))
      as [Hlong | Hshort].
    + destruct (Hfile Hlong) as [suffix Hsuffix]. rewrite Hsuffix in Hrun.
      destruct Hrun as (_ & Hflags & _ & _ & Hjoined & _).
      split; [exact Hflags |].
      intros Hall. rewrite Hjoined, Hall. reflexivity.
    + destruct Hrun as (_ & Hflags & _ & _ & Hjoined).
      split; [exact Hflags |].
      intros Hall. rewrite Hjoined, Hall. reflexivity.
Qed.

(** A child is created with the flags 0, or suspended, or suspended and
    broken away, and never twice.  With the flags 0 the launcher has
    created no job and resumes nothing.  In every launch that waits for a
    child created suspended, the child has been assigned to the launcher's
    job and resumed; in a launch that does not wait for it, it was not
    resumed, and it was terminated if the assignment had been tried. *)
Theorem suspended_child_is_resumed
    (api : Api) (path : string) (argv : list string) (doreturn : bool)
    (fd_stdout fd_stderr : Z) (temp_dir : string)
    (disk : gmap string string) :
  let tr := trace (win32execute fs env api path argv doreturn fd_stdout
                     fd_stderr temp_dir disk).2 in
  (length (creation_flags tr) ≤ 1)%nat
  ∧ ∀ f, In f (creation_flags tr) →
      (f = 0 ∨ f = CREATE_SUSPENDED
       ∨ f = Z.lor CREATE_BREAKAWAY_FROM_JOB CREATE_SUSPENDED)
      ∧ (f = 0 →
         jobs_created tr = [] ∧ jobs_joined tr = [] ∧ resumes tr = [])
      ∧ (f ≠ 0 → waits tr = [tt] →
         jobs_joined tr = [os_CreateJobObject api] ∧ resumes tr = [tt])
      ∧ (f ≠ 0 → waits tr = [] →
         resumes tr = []
         ∧ (jobs_joined tr ≠ [] → terminations tr = [1])).
Proof.
  intros tr. subst tr. run_flat path.
  all: read_trace.
  all: split; [cbn [length]; lia |].
  all: intros f Hf; cbn [In] in Hf; try contradiction.
  all: destruct Hf as [<- | []].
  all: repeat split; intros; auto; try discriminate; try congruence.
Qed.

(** The application handed to [CreateProcess] is the shell, when
    [win32getshell] has found one, and the given path otherwise, each with
    the executable suffix added. *)
Theorem application_launched
    (api : Api) (path : string) (argv : list string) (doreturn : bool)
    (fd_stdout fd_stderr : Z) (temp_dir : string)
    (disk : gmap string string) :
  let sh := (win32getshell fs env path).1 in
  let tr := trace (win32execute fs env api path argv doreturn fd_stdout
                     fd_stderr temp_dir disk).2 in
  ∀ app, In app (applications tr) →
         app = add_exe_suffix (if negb (is_empty sh) then sh else path).
Proof.
  intros sh tr. subst tr sh. run_flat path.
  all: read_trace.
  all: intros app Happ; cbn [In] in Happ; intuition congruence.
Qed.


(** The response file is removed last: when the launcher removes it, this
    is the final call of the launch, and the calls before it include the
    creation of the file, one write to it and one [CreateProcess]. *)
Theorem response_file_removed_last
    (api : Api) (path : string) (argv : list string) (doreturn : bool)
    (fd_stdout fd_stderr : Z) (temp_dir : string)
    (disk : gmap string string) (tmp : string) :
  let tr := trace (win32execute fs env api path argv doreturn fd_stdout
                     fd_stderr temp_dir disk).2 in
  In tmp (tmp_removed tr) →
  ∃ pre, tr = (pre ++ [Remove tmp])%list
         ∧ tmp_removed pre = []
         ∧ tmp_created pre = [tmp]
         ∧ (∃ data, tmp_written pre = [(tmp, data)])
         ∧ length (command_lines pre) = 1%nat.
Proof.
  intros tr. subst tr. run_cases path.
  all: cbn [fst snd files trace tmp_file_path].
  all: intros Hin; unfold tmp_removed in Hin;
    rewrite ?flat_map_app in Hin; rewrite ?pick_Did in Hin by reflexivity;
    cbn [app flat_map In] in Hin; try contradiction.
  all: destruct Hin as [<- | []].
  all: eexists; split; [reflexivity |].
  all: unfold tmp_removed, tmp_created, tmp_written, command_lines;
    repeat read_one; cbn [app flat_map length].
  all: repeat split; eauto.
Qed.

End More.

(** A launch from outside any job in which every call succeeds. *)
Lemma job_for_a_free_process_witness :
  let tr := trace (win32execute (U := Sample.windows) Sample.fs2 Sample.env2
                     Sample.api_not_in_job "/bin/cc" ["/bin/cc"; "-c"; "x.c"]
                     true 3 4 "/tmp" ∅).2 in
  jobs_created tr = [77]
  ∧ job_limits tr = [0x3000]
  ∧ creation_flags tr = [CREATE_SUSPENDED]
  ∧ jobs_joined tr = [77].
Proof.
  intros tr.
  destruct (job_for_a_free_process (U := Sample.windows) Sample.fs2
              Sample.env2 Sample.api_not_in_job "/bin/cc"
              ["/bin/cc"; "-c"; "x.c"] true 3 4 "/tmp" ∅ eq_refl)
    as (Hcreated & Hlimits & Hlaunch).
  destruct Hlaunch as [Hflags Hjoined];
    [split; [eexists; reflexivity | intros _; eexists; reflexivity] |].
  split; [exact Hcreated | split; [exact Hlimits | split; [exact Hflags |]]].
  apply Hjoined. reflexivity.
Defined.


Lemma response_file_removed_last_witness :
  let tr := trace (win32execute (U := Sample.windows) Sample.fs2 Sample.env2
                     (Sample.api_ok 0) "/bin/cc" Sample.long_argv true 3 4
                     "/tmp" ∅).2 in
  ∃ pre, tr = (pre ++ [Remove "/tmp/cmd_args.a1b2c3.tmp"])%list
         ∧ tmp_removed pre = []
         ∧ tmp_created pre = ["/tmp/cmd_args.a1b2c3.tmp"]
         ∧ (∃ data, tmp_written pre = [("/tmp/cmd_args.a1b2c3.tmp", data)])
         ∧ length (command_lines pre) = 1%nat.
Proof.
  apply (response_file_removed_last (U := Sample.windows) Sample.fs2
           Sample.env2 (Sample.api_ok 0) "/bin/cc" Sample.long_argv true 3 4
           "/tmp" ∅ "/tmp/cmd_args.a1b2c3.tmp").
  vm_compute. auto.
Defined.

(** The script /work/run.SH is launched through the shell found in /bin. *)
Lemma application_launched_witness :
  "/bin/sh.exe"
  = add_exe_suffix (Util := Sample.windows)
      (if negb (is_empty (win32getshell (U := Sample.windows) Sample.fs2
                            Sample.env2 "/work/run.SH").1)
       then (win32getshell (U := Sample.windows) Sample.fs2 Sample.env2
               "/work/run.SH").1
       else "/work/run.SH").
Proof.
  apply (application_launched (U := Sample.windows) Sample.fs2 Sample.env2
           (Sample.api_ok 0) "/work/run.SH" ["/work/run.SH"; "x"] true 3 4
           "/tmp" ∅ "/bin/sh.exe").
  vm_compute. auto.
Defined.

(** [IsProcessInJob] fails: the launch "succeeds" with 0 although no
    process was created, and [execute_noreturn] comes back. *)
Example job_query_failure :
  (execute (U := Sample.windows) Sample.fs2 Sample.env2
     Sample.api_job_query_fails "/tmp" ["/bin/cc"; "-c"; "x.c"] 3 4 ∅).1
  = Returned 0
  ∧ (execute_noreturn (U := Sample.windows) Sample.fs2 Sample.env2
       Sample.api_job_query_fails ["/bin/cc"; "-c"; "x.c"] "/tmp" ∅).1
    = Returned 0.
Proof. split; reflexivity. Qed.

End Win32More.
